(** * claude-code-proxy: WebSearch interception, Exa search adapter,
      API-key validation and token estimation

    A shallow embedding of [src/api/endpoints.py] and
    [src/utils/exa_search.py].

    Conventions of the embedding.
    - A Python [str] is a [string]: one [ascii] per character, so the
      embedding covers the code points 0..255.  [len], [in], [startswith]
      and [replace] are the functions of module [Py] below.
    - A Python [int] is a [Z].
    - A Python [dict] with string keys is an association list in insertion
      order ([Json.dict]); JSON-like values ([Dict[str, Any]], the result
      of [response.json()]) are values of [Json.json].
    - A Python [float] is a [Py.pyfloat]: it is given by what [repr]
      writes of it (sign, shortest decimal digits, position of the
      decimal point), or it is an infinity or NaN.  No arithmetic on
      floats is modelled: the code only decodes and encodes them.
    - Code that performs I/O or may raise runs in the monad [Eff.M]:
      a trace of observable events is threaded through, and a computation
      ends in a value or in a raised [Exception]. *)

From Stdlib Require Import String Ascii List ZArith NArith Lia Bool Arith.
From Stdlib Require Import DecimalString DecimalN DecimalPos DecimalFacts.
Import ListNotations.
Open Scope list_scope.
Open Scope string_scope.

(* ================================================================== *)
(** ** Python primitives on strings *)
(* ================================================================== *)

Module Py.

(** [s.startswith(p)] *)
Definition startswith (s p : string) : bool := String.prefix p s.

(** [needle in hay] for two strings. *)
Fixpoint contains (needle hay : string) : bool :=
  if String.prefix needle hay then true
  else match hay with
       | EmptyString => false
       | String _ hay' => contains needle hay'
       end.

(** [s.replace(old, new)] for a non-empty [old]: the occurrences of [old]
    are found from left to right without overlap.  [skip] counts the
    characters of the occurrence being replaced that are still to drop. *)
Fixpoint replace_from (skip : nat) (old new s : string) : string :=
  match s with
  | EmptyString => EmptyString
  | String c s' =>
      match skip with
      | S k => replace_from k old new s'
      | O =>
          if String.prefix old s
          then new ++ replace_from (String.length old - 1) old new s'
          else String c (replace_from 0 old new s')
      end
  end.

Definition replace (s old new : string) : string := replace_from 0 old new s.

(** [len(s)] *)
Definition len (s : string) : Z := Z.of_nat (String.length s).

(** Truth value of a string ([if s:]). *)
Definition truthy_str (s : string) : bool :=
  match s with EmptyString => false | _ => true end.

(** Truth value of an optional string ([None] is false). *)
Definition truthy_opt (o : option string) : bool :=
  match o with None => false | Some s => truthy_str s end.

(** [str(n)] for an integer. *)
Definition str_of_N (n : N) : string := NilZero.string_of_uint (N.to_uint n).

Definition str_of_Z (z : Z) : string :=
  if (z <? 0)%Z then String "-" (str_of_N (Z.abs_N z)) else str_of_N (Z.abs_N z).

(** A [float].  A finite float other than zero is given by the shortest
    decimal digits d1...dn that identify it (the decimal digits of
    [significand]) and the position [decpt] of its decimal point: its
    value is 0.d1...dn times 10 to the [decpt]. *)
Inductive pyfloat : Type :=
| FZero (negative : bool)
| FFinite (negative : bool) (significand : positive) (decpt : Z)
| FInf (negative : bool)
| FNaN.

Fixpoint zeros (n : nat) : string :=
  match n with
  | O => EmptyString
  | S n' => String "0" (zeros n')
  end.

(** [s[:n]] and [s[n:]] *)
Fixpoint take (n : nat) (s : string) : string :=
  match n, s with
  | S n', String c s' => String c (take n' s')
  | _, _ => EmptyString
  end.

Fixpoint drop (n : nat) (s : string) : string :=
  match n, s with
  | S n', String _ s' => drop n' s'
  | _, _ => s
  end.

(** The exponent of the scientific notation: a sign and at least two
    digits. *)
Definition exponent_text (e : Z) : string :=
  let digits := str_of_N (Z.abs_N e) in
  String (if (e <? 0)%Z then "-" else "+")%char
         (if (String.length digits <? 2)%nat then String "0" digits else digits).

(** [repr(x)] for a finite float other than zero, from its digits: the
    scientific notation when the decimal point is more than 16 places to
    the right of the first digit or more than 3 to the left of it, the
    plain notation otherwise, always with a fraction. *)
Definition repr_finite (negative : bool) (digits : string) (decpt : Z) : string :=
  let n := Z.of_nat (String.length digits) in
  (if negative then "-" else "") ++
  (if (decpt <=? -4)%Z || (16 <? decpt)%Z then
     match digits with
     | String d EmptyString => String d EmptyString
     | String d ds => String d (String "." ds)
     | EmptyString => EmptyString
     end ++ String "e" (exponent_text (decpt - 1))
   else if (decpt <=? 0)%Z then
     "0." ++ zeros (Z.to_nat (- decpt)) ++ digits
   else if (decpt <? n)%Z then
     take (Z.to_nat decpt) digits ++ String "." (drop (Z.to_nat decpt) digits)
   else
     digits ++ zeros (Z.to_nat (decpt - n)) ++ ".0").

(** [repr(x)] for a float. *)
Definition repr_float (x : pyfloat) : string :=
  match x with
  | FZero negative => if negative then "-0.0" else "0.0"
  | FFinite negative significand decpt =>
      repr_finite negative (str_of_N (Npos significand)) decpt
  | FInf negative => if negative then "-inf" else "inf"
  | FNaN => "nan"
  end.

(** [sep.join(parts)] *)
Fixpoint join (sep : string) (parts : list string) : string :=
  match parts with
  | [] => EmptyString
  | [p] => p
  | p :: rest => p ++ sep ++ join sep rest
  end.

End Py.

(* ================================================================== *)
(** ** JSON values, Python dictionaries, [json.dumps] *)
(* ================================================================== *)

Module Json.

Unset Elimination Schemes.
Inductive json : Type :=
| JNull
| JBool (b : bool)
| JInt (z : Z)
| JFloat (x : Py.pyfloat)
| JStr (s : string)
| JArr (items : list json)
| JObj (members : list (string * json)).
Set Elimination Schemes.

(** Induction on a value, with the property known of the items of an
    array and of the values of an object. *)
Section Induction.

Variable P : json -> Prop.
Hypothesis P_null : P JNull.
Hypothesis P_bool : forall b, P (JBool b).
Hypothesis P_int : forall z, P (JInt z).
Hypothesis P_float : forall x, P (JFloat x).
Hypothesis P_str : forall s, P (JStr s).
Hypothesis P_arr : forall items, Forall P items -> P (JArr items).
Hypothesis P_obj : forall members, Forall (fun kv => P (snd kv)) members -> P (JObj members).

Fixpoint json_induction (v : json) : P v :=
  match v with
  | JNull => P_null
  | JBool b => P_bool b
  | JInt z => P_int z
  | JFloat x => P_float x
  | JStr s => P_str s
  | JArr items =>
      P_arr items
        ((fix all (l : list json) : Forall P l :=
            match l with
            | [] => Forall_nil P
            | x :: l' => Forall_cons x (json_induction x) (all l')
            end) items)
  | JObj members =>
      P_obj members
        ((fix all (l : list (string * json)) : Forall (fun kv => P (snd kv)) l :=
            match l with
            | [] => Forall_nil _
            | kv :: l' => Forall_cons kv (json_induction (snd kv)) (all l')
            end) members)
  end.

End Induction.

(** A [dict] with string keys, in insertion order. *)
Definition dict : Type := list (string * json).

Fixpoint lookup (k : string) (d : dict) : option json :=
  match d with
  | [] => None
  | (k', v) :: d' => if String.eqb k' k then Some v else lookup k d'
  end.

(** [d.get(k, default)] *)
Definition get (d : dict) (k : string) (default : json) : json :=
  match lookup k d with
  | Some v => v
  | None => default
  end.

(** [k in d] *)
Definition has_key (d : dict) (k : string) : bool :=
  match lookup k d with Some _ => true | None => false end.

(** [d[k] = v]: an existing key keeps its place, a new key goes last. *)
Fixpoint setitem (d : dict) (k : string) (v : json) : dict :=
  match d with
  | [] => [(k, v)]
  | (k', v') :: d' =>
      if String.eqb k' k then (k', v) :: d' else (k', v') :: setitem d' k v
  end.

(** Truth value of a value ([if v:]). *)
Definition truthy (v : json) : bool :=
  match v with
  | JNull => false
  | JBool b => b
  | JInt z => negb (z =? 0)%Z
  | JFloat (Py.FZero _) => false
  | JFloat _ => true
  | JStr s => Py.truthy_str s
  | JArr [] => false
  | JArr (_ :: _) => true
  | JObj [] => false
  | JObj (_ :: _) => true
  end.

(** *** Serialisation *)

Definition dquote : ascii := "034"%char.
Definition backslash : ascii := "092"%char.

Definition hex_digit (n : nat) : ascii :=
  if (n <? 10)%nat then ascii_of_nat (48 + n) else ascii_of_nat (87 + n).

(** The [\uXXXX] escape of a character (code point below 256). *)
Definition unicode_escape (c : ascii) : string :=
  let n := nat_of_ascii c in
  String backslash (String "u" (String "0" (String "0"
    (String (hex_digit (n / 16)) (String (hex_digit (n mod 16)) EmptyString))))).

(** One character of a string literal, as the encoder of the [json] module
    writes it: the quote, the backslash and the control characters are
    always escaped; with [ensure_ascii] every character outside the
    printable ASCII range is escaped too. *)
Definition escape_char (ensure_ascii : bool) (c : ascii) : string :=
  if Ascii.eqb c dquote then String backslash (String dquote EmptyString)
  else if Ascii.eqb c backslash then String backslash (String backslash EmptyString)
  else if Ascii.eqb c "010"%char then String backslash "n"
  else if Ascii.eqb c "013"%char then String backslash "r"
  else if Ascii.eqb c "009"%char then String backslash "t"
  else if Ascii.eqb c "008"%char then String backslash "b"
  else if Ascii.eqb c "012"%char then String backslash "f"
  else if (nat_of_ascii c <? 32)%nat then unicode_escape c
  else if ensure_ascii && (126 <? nat_of_ascii c)%nat then unicode_escape c
  else String c EmptyString.

Fixpoint escape (ensure_ascii : bool) (s : string) : string :=
  match s with
  | EmptyString => EmptyString
  | String c s' => escape_char ensure_ascii c ++ escape ensure_ascii s'
  end.

Definition quote (ensure_ascii : bool) (s : string) : string :=
  String dquote (escape ensure_ascii s ++ String dquote EmptyString).

(** A float as the encoder writes it (with the default [allow_nan]):
    [repr] for a finite float, and NaN, Infinity, -Infinity. *)
Definition float_text (x : Py.pyfloat) : string :=
  match x with
  | Py.FNaN => "NaN"
  | Py.FInf negative => if negative then "-Infinity" else "Infinity"
  | _ => Py.repr_float x
  end.

(** [json.dumps(v, ensure_ascii=...)] with the default separators. *)
Fixpoint dumps (ensure_ascii : bool) (v : json) : string :=
  match v with
  | JNull => "null"
  | JBool true => "true"
  | JBool false => "false"
  | JInt z => Py.str_of_Z z
  | JFloat x => float_text x
  | JStr s => quote ensure_ascii s
  | JArr items =>
      "[" ++ Py.join ", " (map (dumps ensure_ascii) items) ++ "]"
  | JObj members =>
      "{" ++ Py.join ", "
               (map (fun kv : string * json => let (k, x) := kv in
                               quote ensure_ascii k ++ ": " ++ dumps ensure_ascii x)
                    members) ++ "}"
  end.

(** *** A recogniser of JSON texts (RFC 8259) *)

Definition is_ws (c : ascii) : bool :=
  Ascii.eqb c " "%char || Ascii.eqb c "009"%char
  || Ascii.eqb c "010"%char || Ascii.eqb c "013"%char.

Definition is_digit (c : ascii) : bool :=
  (48 <=? nat_of_ascii c)%nat && (nat_of_ascii c <=? 57)%nat.

Definition is_digit19 (c : ascii) : bool :=
  (49 <=? nat_of_ascii c)%nat && (nat_of_ascii c <=? 57)%nat.

Definition is_hex (c : ascii) : bool :=
  is_digit c
  || ((97 <=? nat_of_ascii c)%nat && (nat_of_ascii c <=? 102)%nat)
  || ((65 <=? nat_of_ascii c)%nat && (nat_of_ascii c <=? 70)%nat).

Definition is_simple_escape (c : ascii) : bool :=
  Ascii.eqb c dquote || Ascii.eqb c backslash || Ascii.eqb c "/"%char
  || Ascii.eqb c "b"%char || Ascii.eqb c "f"%char || Ascii.eqb c "n"%char
  || Ascii.eqb c "r"%char || Ascii.eqb c "t"%char.

Fixpoint skip_ws (s : string) : string :=
  match s with
  | String c s' => if is_ws c then skip_ws s' else s
  | EmptyString => EmptyString
  end.

Fixpoint skip_digits (s : string) : string :=
  match s with
  | String c s' => if is_digit c then skip_digits s' else s
  | EmptyString => EmptyString
  end.

(** An optional fraction: a dot and at least one digit. *)
Definition scan_frac (s : string) : string :=
  match s with
  | String dot (String c s') =>
      if Ascii.eqb dot "."%char && is_digit c then skip_digits s' else s
  | _ => s
  end.

(** At least one digit. *)
Definition scan_digits1 (s : string) : option string :=
  match s with
  | String c s' => if is_digit c then Some (skip_digits s') else None
  | EmptyString => None
  end.

(** An optional exponent: e or E, an optional sign, at least one digit. *)
Definition scan_exp (s : string) : string :=
  match s with
  | String e r =>
      if Ascii.eqb e "e"%char || Ascii.eqb e "E"%char then
        match r with
        | String sg r' =>
            if Ascii.eqb sg "+"%char || Ascii.eqb sg "-"%char
            then match scan_digits1 r' with Some t => t | None => s end
            else match scan_digits1 r with Some t => t | None => s end
        | EmptyString => s
        end
      else s
  | EmptyString => s
  end.

(** The digits of a number after its sign: a zero alone, or a digit from 1
    to 9 and more digits; then the optional fraction and exponent. *)
Definition scan_unsigned (s : string) : option string :=
  match s with
  | String c r =>
      if Ascii.eqb c "0"%char then Some (scan_exp (scan_frac r))
      else if is_digit19 c then Some (scan_exp (scan_frac (skip_digits r)))
      else None
  | EmptyString => None
  end.

(** A number; the answer is what follows it. *)
Definition scan_number (s : string) : option string :=
  match s with
  | String c r => if Ascii.eqb c "-"%char then scan_unsigned r else scan_unsigned s
  | EmptyString => None
  end.

(** The rest of a string literal after its opening quote. *)
Fixpoint scan_string (s : string) : option string :=
  match s with
  | EmptyString => None
  | String c r =>
      if Ascii.eqb c dquote then Some r
      else if Ascii.eqb c backslash then
        match r with
        | String e r1 =>
            if is_simple_escape e then scan_string r1
            else if Ascii.eqb e "u"%char then
              match r1 with
              | String h1 (String h2 (String h3 (String h4 r2))) =>
                  if is_hex h1 && is_hex h2 && is_hex h3 && is_hex h4
                  then scan_string r2 else None
              | _ => None
              end
            else None
        | EmptyString => None
        end
      else if (nat_of_ascii c <? 32)%nat then None
      else scan_string r
  end.

(** The characters of [word], one after the other. *)
Fixpoint expect (word s : string) : option string :=
  match word with
  | EmptyString => Some s
  | String w word' =>
      match s with
      | String c s' => if Ascii.eqb c w then expect word' s' else None
      | EmptyString => None
      end
  end.

(** A value, the elements of an array after its bracket, the members of an
    object after its brace.  [fuel] bounds the number of nested calls. *)
Fixpoint scan_value (fuel : nat) (s : string) {struct fuel} : option string :=
  match fuel with
  | O => None
  | S fuel' =>
      match s with
      | String c r =>
          if Ascii.eqb c "["%char then
            match skip_ws r with
            | String c1 r1 =>
                if Ascii.eqb c1 "]"%char then Some r1
                else scan_elements fuel' (String c1 r1)
            | EmptyString => None
            end
          else if Ascii.eqb c "{"%char then
            match skip_ws r with
            | String c1 r1 =>
                if Ascii.eqb c1 "}"%char then Some r1
                else scan_members fuel' (String c1 r1)
            | EmptyString => None
            end
          else if Ascii.eqb c dquote then scan_string r
          else if Ascii.eqb c "n"%char then expect "ull" r
          else if Ascii.eqb c "t"%char then expect "rue" r
          else if Ascii.eqb c "f"%char then expect "alse" r
          else scan_number s
      | EmptyString => None
      end
  end
with scan_elements (fuel : nat) (s : string) {struct fuel} : option string :=
  match fuel with
  | O => None
  | S fuel' =>
      match scan_value fuel' s with
      | Some r =>
          match skip_ws r with
          | String c r' =>
              if Ascii.eqb c ","%char then scan_elements fuel' (skip_ws r')
              else if Ascii.eqb c "]"%char then Some r'
              else None
          | EmptyString => None
          end
      | None => None
      end
  end
with scan_members (fuel : nat) (s : string) {struct fuel} : option string :=
  match fuel with
  | O => None
  | S fuel' =>
      match s with
      | String q r =>
          if Ascii.eqb q dquote then
            match scan_string r with
            | Some r1 =>
                match skip_ws r1 with
                | String colon r2 =>
                    if Ascii.eqb colon ":"%char then
                      match scan_value fuel' (skip_ws r2) with
                      | Some r3 =>
                          match skip_ws r3 with
                          | String c r4 =>
                              if Ascii.eqb c ","%char then scan_members fuel' (skip_ws r4)
                              else if Ascii.eqb c "}"%char then Some r4
                              else None
                          | EmptyString => None
                          end
                      | None => None
                      end
                    else None
                | EmptyString => None
                end
            | None => None
            end
          else None
      | EmptyString => None
      end
  end.

(** [s] is a JSON text: one value, with white space around it allowed. *)
Definition is_json (s : string) : bool :=
  match scan_value (2 * String.length s + 1) (skip_ws s) with
  | Some r => match skip_ws r with EmptyString => true | _ => false end
  | None => false
  end.

(** *** Notions about the texts that [dumps] writes *)

(** A float that is neither an infinity nor NaN. *)
Definition finite_float (x : Py.pyfloat) : bool :=
  match x with
  | Py.FInf _ | Py.FNaN => false
  | _ => true
  end.

(** No number of [v] is an infinity or NaN. *)
Fixpoint finite_numbers (v : json) : bool :=
  match v with
  | JFloat x => finite_float x
  | JArr items => forallb finite_numbers items
  | JObj members =>
      forallb (fun kv : string * json => let (_, x) := kv in finite_numbers x) members
  | _ => true
  end.

Fixpoint all_digits (s : string) : bool :=
  match s with
  | EmptyString => true
  | String c s' => is_digit c && all_digits s'
  end.

(** What may follow a value inside a text that [dumps] writes. *)
Definition ends_value (rest : string) : bool :=
  match rest with
  | EmptyString => true
  | String c _ => Ascii.eqb c ","%char || Ascii.eqb c "]"%char || Ascii.eqb c "}"%char
  end.

(** The first character of a serialised value starts a value. *)
Definition starts_value (s : string) : Prop :=
  exists c r, s = String c r /\ is_ws c = false
              /\ Ascii.eqb c "]" = false /\ Ascii.eqb c "}" = false.

(** The text of one member of an object. *)
Definition member_text (ensure_ascii : bool) (kv : string * json) : string :=
  let (k, x) := kv in quote ensure_ascii k ++ ": " ++ dumps ensure_ascii x.

(** [v] is scanned as one value, whatever follows it. *)
Definition scans (ensure_ascii : bool) (v : json) : Prop :=
  forall fuel rest,
    2 * String.length (dumps ensure_ascii v) <= fuel ->
    ends_value rest = true ->
    scan_value fuel (dumps ensure_ascii v ++ rest) = Some rest.

End Json.

Import Json.

(* ================================================================== *)
(** ** Effects: exceptions and the trace of observable events *)
(* ================================================================== *)

Module Eff.

(** A raised [Exception]; [str(e)] is its [message]. *)
Record exn : Type := Exception { message : string }.

Inductive outcome (A : Type) : Type :=
| Ok (a : A)
| Raised (e : exn).
Arguments Ok {A} a.
Arguments Raised {A} e.

(** The request [client.post(url, headers=..., json=..., timeout=...)]. *)
Record http_request : Type := HttpRequest {
  url : string;
  headers : list (string * string);
  payload : json;
  timeout : Z
}.

(** A response: its status, its body as text, and what [response.json()]
    gives (the decoded body, or the exception of a body that is no JSON). *)
Record http_response : Type := HttpResponse {
  status_code : Z;
  text : string;
  json_body : outcome json
}.

(** What an observer of one request sees, in order of occurrence. *)
Inductive event : Type :=
| SearchCall (tool_input : dict)      (* the Search Adapter is invoked *)
| HttpPost (req : http_request)       (* a request goes to the search service *)
| SearchFailed (e : exn).             (* the interceptor's except branch runs *)

Definition trace : Type := list event.

Definition M (A : Type) : Type := trace -> outcome A * trace.

Definition ret {A} (a : A) : M A := fun t => (Ok a, t).

Definition bind {A B} (m : M A) (k : A -> M B) : M B :=
  fun t => match m t with
           | (Ok a, t') => k a t'
           | (Raised e, t') => (Raised e, t')
           end.

Definition lift {A} (o : outcome A) : M A := fun t => (o, t).

Definition emit (ev : event) : M unit := fun t => (Ok tt, t ++ [ev])%list.

(** [try: body  except Exception as e: handler(e)] *)
Definition try_except {A} (body : M A) (handler : exn -> M A) : M A :=
  fun t => match body t with
           | (Ok a, t') => (Ok a, t')
           | (Raised e, t') => handler e t'
           end.

(** [for x in xs: x := f(x)]: the elements are visited in order and each
    is replaced by what the body leaves of it. *)
Fixpoint for_each {A} (f : A -> M A) (xs : list A) : M (list A) :=
  match xs with
  | [] => ret []
  | x :: xs' =>
      bind (f x) (fun y => bind (for_each f xs') (fun ys => ret (y :: ys)))
  end.

(** [for x in xs: acc := f(x, acc)] *)
Fixpoint fold_each {A S} (f : A -> S -> M S) (xs : list A) (acc : S) : M S :=
  match xs with
  | [] => ret acc
  | x :: xs' => bind (f x acc) (fun acc' => fold_each f xs' acc')
  end.

End Eff.

Import Eff.

Notation "x <- m ;; k" := (bind m (fun x => k))
  (at level 61, m at next level, right associativity).
Notation "m ;;; k" := (bind m (fun _ => k))
  (at level 61, right associativity).

(* ================================================================== *)
(** ** src/utils/exa_search.py *)
(* ================================================================== *)

Module ExaSearchAdapter.

Definition base_url : string := "https://api.exa.ai".

(** [_create_error_response] *)
Definition _create_error_response (error_message : string) : json :=
  JObj [ ("requestId", JStr "error");
         ("resolvedSearchType", JStr "error");
         ("results", JArr []);
         ("searchType", JStr "error");
         ("context", JStr ("Error: " ++ error_message));
         ("costDollars", JObj [ ("total", JInt 0);
                                ("breakDown", JArr []);
                                ("perRequestPrices", JObj []);
                                ("perPagePrices", JObj []) ]) ].

(** [_map_websearch_to_exa] *)
Definition _map_websearch_to_exa (websearch_input : dict) : dict :=
  let exa_params : dict :=
    [ ("query", get websearch_input "query" (JStr ""));
      ("type", JStr "auto");
      ("numResults", JInt 10);
      ("contents",
        JObj [ ("text", JObj [("maxCharacters", JInt 2000)]);
               ("highlights", JObj [("numSentences", JInt 2)]);
               ("summary", JObj [("query", get websearch_input "query" (JStr ""))]) ]) ] in
  let allowed_domains := get websearch_input "allowed_domains" (JArr []) in
  let exa_params :=
    if truthy allowed_domains
    then setitem exa_params "includeDomains" allowed_domains else exa_params in
  let blocked_domains := get websearch_input "blocked_domains" (JArr []) in
  let exa_params :=
    if truthy blocked_domains
    then setitem exa_params "excludeDomains" blocked_domains else exa_params in
  setitem exa_params "startCrawlDate" (JStr "2024-01-01").

Section Adapter.

(** [self.api_key]: the value of EXA_API_KEY, the empty string when unset. *)
Variable api_key : string.

(** The search service and the transport to it: what a request gets, given
    what has happened so far, a response or a raised transport error. *)
Variable network : trace -> http_request -> outcome http_response.

(** [await client.post(...)] *)
Definition post (req : http_request) : M http_response :=
  fun t => (network t req, t ++ [HttpPost req])%list.

(** The request that [search] sends. *)
Definition search_request (exa_params : dict) : http_request :=
  {| url := base_url ++ "/search";
     headers := [("x-api-key", api_key); ("Content-Type", "application/json")];
     payload := JObj exa_params;
     timeout := 30 |}.

(** [ExaSearchAdapter.search] *)
Definition search (websearch_input : dict) : M json :=
  if negb (Py.truthy_str api_key) then
    ret (_create_error_response "EXA_API_KEY not configured")
  else
    try_except
      (let exa_params := _map_websearch_to_exa websearch_input in
       response <- post (search_request exa_params) ;;
       if negb (status_code response =? 200)%Z then
         ret (_create_error_response
                ("Exa API error: " ++ Py.str_of_Z (status_code response)))
       else
         lift (json_body response))
      (fun e => ret (_create_error_response (message e))).

(** [process_websearch_via_exa]: the entry point; the trace records the
    invocation. *)
Definition process_websearch_via_exa (tool_input : dict) : M json :=
  emit (SearchCall tool_input) ;;; search tool_input.

End Adapter.

End ExaSearchAdapter.

Import ExaSearchAdapter.

(* ================================================================== *)
(** ** The message model *)
(* ================================================================== *)

Module Model.

Inductive Role : Type := user | assistant.

Definition Role_eqb (a b : Role) : bool :=
  match a, b with
  | user, user | assistant, assistant => true
  | _, _ => false
  end.

(** Modelled from the spec: the content of a [tool_result] block
    ([src/models/claude.py] is not part of the sources): a string, or a
    structured payload (a list or a dict). *)
Inductive ToolResultContent : Type :=
| ResultStr (s : string)
| ResultData (v : json).

(** Modelled from the spec: the Content Block of section 3 (the
    declarations of [src/models/claude.py] are not part of the sources):
    a tagged union over text, tool_use (id, name, input), tool_result
    (tool_use_id, content) and the pass-through kinds.  Every block has a
    [type]; of a pass-through block the code only asks for its [text],
    which is absent ([None]), the value None ([Some None]) or a string. *)
Inductive ContentBlock : Type :=
| TextBlock (text : string)
| ToolUseBlock (id name : string) (input : dict)
| ToolResultBlock (tool_use_id : string) (content : ToolResultContent)
| OtherBlock (text : option (option string)).

(** Modelled from the spec: the Content of a Turn: None, plain text, or an
    ordered sequence of Content Blocks. *)
Inductive Content : Type :=
| NoContent
| Text (s : string)
| Blocks (blocks : list ContentBlock).

(** Modelled from the spec: a Turn of the Conversation. *)
Record Message : Type := { role : Role; content : Content }.

(** Modelled from the spec: a block of a block-structured system prompt;
    [sys_text] is its [text] attribute when it has one. *)
Record SystemBlock : Type := { sys_text : option string }.

(** Modelled from the spec: the optional system prompt, a string or a
    block sequence. *)
Inductive SystemPrompt : Type :=
| SystemText (s : string)
| SystemBlocks (blocks : list SystemBlock).

End Model.

Import Model.

(** Modelled from the spec: the Request of the source dialect (section 3). *)
Module ClaudeMessagesRequest.
Record t : Type := {
  model : string;
  max_tokens : Z;
  messages : list Message;
  system : option SystemPrompt;
  stream : bool
}.
End ClaudeMessagesRequest.

(** Modelled from the spec: the request of the token-count endpoint. *)
Module ClaudeTokenCountRequest.
Record t : Type := {
  model : string;
  messages : list Message;
  system : option SystemPrompt
}.
End ClaudeTokenCountRequest.

(* ================================================================== *)
(** ** src/api/endpoints.py *)
(* ================================================================== *)

Module Endpoints.

Record HTTPException : Type := { status : Z; detail : string }.

(** What a request handler or a dependency of it ends in: it returns, or
    it raises an [HTTPException], which the framework answers with that
    status. *)
Inductive handled (A : Type) : Type :=
| Returns (a : A)
| Raises (e : HTTPException).
Arguments Returns {A} a.
Arguments Raises {A} e.

(** *** validate_api_key *)

Section Auth.

(** [config.anthropic_api_key] ([None] when ANTHROPIC_API_KEY is unset). *)
Variable anthropic_api_key : option string.

(** [config.validate_client_api_key] ([src/core/config.py] is not part of
    the sources): the check of a client key against the configuration. *)
Variable validate_client_api_key : string -> bool.

(** The key extracted from the two headers. *)
Definition client_api_key (x_api_key authorization : option string) : option string :=
  if Py.truthy_opt x_api_key then x_api_key
  else
    match authorization with
    | Some a =>
        if Py.truthy_str a && Py.startswith a "Bearer "
        then Some (Py.replace a "Bearer " "")
        else None
    | None => None
    end.

Definition validate_api_key (x_api_key authorization : option string)
  : handled unit :=
  let key := client_api_key x_api_key authorization in
  if negb (Py.truthy_opt anthropic_api_key) then Returns tt
  else if negb (Py.truthy_opt key)
          || negb (match key with Some k => validate_client_api_key k | None => false end)
  then Raises {| status := 401;
                 detail := "Invalid API key. Please provide a valid Anthropic API key." |}
  else Returns tt.

End Auth.

(** *** intercept_websearch_in_request *)

(** The test of line 89: the content is an upstream error or a placeholder. *)
Definition placeholder (current_content : string) : bool :=
  Py.contains "API Error" current_content
  || Py.contains "Did 0 searches" current_content
  || Py.contains "Web search results" current_content.

Section Interceptor.

Variable api_key : string.
Variable network : trace -> http_request -> outcome http_response.

(** The body of the inner loop: one block of the last user turn against
    one WebSearch [tool_use] block (its id and its input). *)
Definition visit_user_block (assistant_id : string) (assistant_input : dict)
    (user_block : ContentBlock) : M ContentBlock :=
  match user_block with
  | ToolResultBlock tool_use_id current =>
      if String.eqb tool_use_id assistant_id then
        match current with
        | ResultStr current_content =>
            if placeholder current_content then
              try_except
                (search_results <- process_websearch_via_exa api_key network assistant_input ;;
                 ret (ToolResultBlock tool_use_id
                        (ResultStr (dumps false search_results))))
                (fun e =>
                   emit (SearchFailed e) ;;;
                   ret (ToolResultBlock tool_use_id
                          (ResultStr (dumps true
                             (JObj [ ("error", JStr ("Search failed: " ++ message e));
                                     ("results", JArr []) ])))))
            else ret user_block
        | ResultData _ => ret user_block
        end
      else ret user_block
  | _ => ret user_block
  end.

(** The body of the outer loop: one block of the assistant turn against
    the blocks of the last user turn. *)
Definition visit_assistant_block (assistant_block : ContentBlock)
    (last_content : list ContentBlock) : M (list ContentBlock) :=
  match assistant_block with
  | ToolUseBlock id name input =>
      if String.eqb name "WebSearch"
      then for_each (visit_user_block id input) last_content
      else ret last_content
  | _ => ret last_content
  end.

(** The request with the content of its last message replaced. *)
Definition with_last_content (request : ClaudeMessagesRequest.t)
    (last : Message) (blocks : list ContentBlock) : ClaudeMessagesRequest.t :=
  let msgs := ClaudeMessagesRequest.messages request in
  {| ClaudeMessagesRequest.model := ClaudeMessagesRequest.model request;
     ClaudeMessagesRequest.max_tokens := ClaudeMessagesRequest.max_tokens request;
     ClaudeMessagesRequest.messages :=
       (firstn (length msgs - 1) msgs
          ++ [ {| role := role last; content := Blocks blocks |} ])%list;
     ClaudeMessagesRequest.system := ClaudeMessagesRequest.system request;
     ClaudeMessagesRequest.stream := ClaudeMessagesRequest.stream request |}.

Definition intercept_websearch_in_request (request : ClaudeMessagesRequest.t)
  : M ClaudeMessagesRequest.t :=
  let msgs := ClaudeMessagesRequest.messages request in
  if (2 <=? length msgs)%nat then
    match nth_error msgs (length msgs - 2), nth_error msgs (length msgs - 1) with
    | Some second_last, Some last =>
        match content second_last, content last with
        | Blocks assistant_blocks, Blocks user_blocks =>
            if Role_eqb (role second_last) assistant && Role_eqb (role last) user then
              blocks' <- fold_each visit_assistant_block assistant_blocks user_blocks ;;
              ret (with_last_content request last blocks')
            else ret request
        | _, _ => ret request
        end
    | _, _ => ret request
    end
  else ret request.

End Interceptor.

(** *** count_tokens *)

(** [if request.system:] *)
Definition truthy_system (system : option SystemPrompt) : bool :=
  match system with
  | None => false
  | Some (SystemText s) => Py.truthy_str s
  | Some (SystemBlocks []) => false
  | Some (SystemBlocks (_ :: _)) => true
  end.

Definition system_block_chars (total_chars : Z) (block : SystemBlock) : Z :=
  match sys_text block with
  | Some text => total_chars + Py.len text
  | None => total_chars
  end%Z.

Definition system_chars (total_chars : Z) (system : option SystemPrompt) : Z :=
  if truthy_system system then
    match system with
    | Some (SystemText s) => total_chars + Py.len s
    | Some (SystemBlocks blocks) => fold_left system_block_chars blocks total_chars
    | None => total_chars
    end%Z
  else total_chars.

Definition block_chars (total_chars : Z) (block : ContentBlock) : Z :=
  match block with
  | TextBlock text => total_chars + Py.len text
  | OtherBlock (Some (Some text)) => total_chars + Py.len text
  | _ => total_chars
  end%Z.

Definition message_chars (total_chars : Z) (msg : Message) : Z :=
  match content msg with
  | NoContent => total_chars
  | Text s => total_chars + Py.len s
  | Blocks blocks => fold_left block_chars blocks total_chars
  end%Z.

Definition count_tokens (request : ClaudeTokenCountRequest.t) : dict :=
  let total_chars := 0%Z in
  let total_chars := system_chars total_chars (ClaudeTokenCountRequest.system request) in
  let total_chars :=
    fold_left message_chars (ClaudeTokenCountRequest.messages request) total_chars in
  let estimated_tokens := Z.max 1 (total_chars / 4) in
  [("input_tokens", JInt estimated_tokens)].

End Endpoints.

Import Endpoints.

(* ================================================================== *)
(** ** The streaming Response Converter *)
(* ================================================================== *)

Module Streaming.

Inductive BlockKind : Type := text_block | tool_use_block.

(** Modelled from the spec: an upstream streaming delta event
    ([src/conversion/response_converter.py] is not part of the sources):
    the index of the content block it belongs to, the kind of that block,
    and its fragment (of text, or of tool-call arguments). *)
Record Delta : Type := { index : nat; kind : BlockKind; fragment : string }.

(** Modelled from the spec: the produced events that concern one content
    block ([src/conversion/response_converter.py] is not part of the
    sources): its start, a delta of text, the delta that surfaces the
    buffered tool-call arguments as one input, its stop. *)
Inductive Event : Type :=
| content_block_start (i : nat) (k : BlockKind)
| text_delta (i : nat) (text : string)
| input_delta (i : nat) (arguments : string)
| content_block_stop (i : nat).

Definition event_index (e : Event) : nat :=
  match e with
  | content_block_start i _ | text_delta i _ | input_delta i _
  | content_block_stop i => i
  end.

Definition is_start (e : Event) : bool :=
  match e with content_block_start _ _ => true | _ => false end.

Definition is_stop (e : Event) : bool :=
  match e with content_block_stop _ => true | _ => false end.

Definition is_delta (e : Event) : bool :=
  match e with text_delta _ _ | input_delta _ _ => true | _ => false end.

(** Modelled from the spec: the Streaming Conversion State of section 3
    for the open content block: block index, block kind, whether its
    start event has been emitted, and the tool-call argument fragments
    accumulated so far. *)
Record OpenBlock : Type := {
  block_index : nat;
  block_kind : BlockKind;
  started : bool;
  arguments_buffer : string
}.

(** Modelled from the spec: a block boundary closes the open block: the
    buffered arguments of a tool call are surfaced as one input, then the
    stop event is emitted (section 4.5). *)
Definition close_block (state : option OpenBlock) : list Event :=
  match state with
  | None => []
  | Some b =>
      if started b then
        match block_kind b with
        | text_block => [content_block_stop (block_index b)]
        | tool_use_block =>
            [input_delta (block_index b) (arguments_buffer b);
             content_block_stop (block_index b)]
        end
      else []
  end.

(** Modelled from the spec: a delta delivered to its block: the first one
    emits the start event before anything else; a text fragment is passed
    on, a fragment of tool-call arguments is buffered (section 4.5). *)
Definition deliver (b : OpenBlock) (d : Delta) : OpenBlock * list Event :=
  let opening :=
    if started b then [] else [content_block_start (block_index b) (block_kind b)] in
  match block_kind b with
  | text_block =>
      ({| block_index := block_index b; block_kind := block_kind b;
          started := true; arguments_buffer := arguments_buffer b |},
       opening ++ [text_delta (block_index b) (fragment d)])%list
  | tool_use_block =>
      ({| block_index := block_index b; block_kind := block_kind b;
          started := true;
          arguments_buffer := arguments_buffer b ++ fragment d |},
       opening)
  end.

(** Modelled from the spec: one upstream delta event: a delta of the open
    block is delivered to it; a delta with a new block index is a block
    boundary, which closes the previous block and opens the new one
    (section 4.5). *)
Definition step (state : option OpenBlock) (d : Delta)
  : option OpenBlock * list Event :=
  let fresh := {| block_index := index d; block_kind := kind d;
                  started := false; arguments_buffer := EmptyString |} in
  match state with
  | Some b =>
      if Nat.eqb (block_index b) (index d) then
        let (b', out) := deliver b d in (Some b', out)
      else
        let (b', out) := deliver fresh d in
        (Some b', (close_block state ++ out)%list)
  | None =>
      let (b', out) := deliver fresh d in (Some b', out)
  end.

(** Modelled from the spec: the produced sequence for a sequence of
    upstream delta events, in arrival order; the end of the stream is a
    block boundary too (section 4.5). *)
Fixpoint run (state : option OpenBlock) (upstream : list Delta) : list Event :=
  match upstream with
  | [] => close_block state
  | d :: upstream' =>
      let (state', out) := step state d in (out ++ run state' upstream')%list
  end.

Definition convert (upstream : list Delta) : list Event := run None upstream.

End Streaming.

Import Streaming.

(* ================================================================== *)
(** ** Notions the statements use *)
(* ================================================================== *)

Module Notions.

(** *** The trigger condition of section 4.1, as the specification words it *)

(** [user_block] is a [tool_result] whose correlation id is [id] and whose
    content is a string with one of the placeholder markers. *)
Definition pending_result (id : string) (user_block : ContentBlock) : bool :=
  match user_block with
  | ToolResultBlock tool_use_id (ResultStr s) =>
      String.eqb tool_use_id id && placeholder s
  | _ => false
  end.

(** [assistant_block] is a [tool_use] block named WebSearch with a pending
    result among [user_blocks]. *)
Definition unresolved_search (user_blocks : list ContentBlock)
    (assistant_block : ContentBlock) : bool :=
  match assistant_block with
  | ToolUseBlock id name _ =>
      String.eqb name "WebSearch" && existsb (pending_result id) user_blocks
  | _ => false
  end.

(** [user_block] is pending for one of the WebSearch blocks of
    [assistant_blocks]: it is a matched [tool_result] block. *)
Definition matched (assistant_blocks : list ContentBlock)
    (user_block : ContentBlock) : bool :=
  existsb (fun a => unresolved_search [user_block] a) assistant_blocks.

Definition trigger_condition (request : ClaudeMessagesRequest.t) : bool :=
  match rev (ClaudeMessagesRequest.messages request) with
  | last :: second_last :: _ =>
      match role second_last, content second_last, role last, content last with
      | assistant, Blocks assistant_blocks, user, Blocks user_blocks =>
          existsb (unresolved_search user_blocks) assistant_blocks
      | _, _, _, _ => false
      end
  | _ => false
  end.

(** *** Counting the events of a trace *)

Definition is_search_call (ev : event) : bool :=
  match ev with SearchCall _ => true | _ => false end.

Definition is_http_post (ev : event) : bool :=
  match ev with HttpPost _ => true | _ => false end.

Definition is_search_failed (ev : event) : bool :=
  match ev with SearchFailed _ => true | _ => false end.

Definition search_calls (t : trace) : nat := length (filter is_search_call t).
Definition http_posts (t : trace) : nat := length (filter is_http_post t).

(** The number of [tool_result] blocks with a string content and the
    correlation id [id]. *)
Definition results_for (id : string) (user_blocks : list ContentBlock) : nat :=
  length (filter (fun u => match u with
                           | ToolResultBlock tool_use_id (ResultStr _) =>
                               String.eqb tool_use_id id
                           | _ => false
                           end) user_blocks).

(** The number of pairs of a WebSearch [tool_use] block of the assistant
    turn and a string [tool_result] block of the user turn with its id. *)
Fixpoint correlated_pairs (assistant_blocks user_blocks : list ContentBlock) : nat :=
  match assistant_blocks with
  | [] => 0
  | ToolUseBlock id name _ :: rest =>
      (if String.eqb name "WebSearch" then results_for id user_blocks else 0)
      + correlated_pairs rest user_blocks
  | _ :: rest => correlated_pairs rest user_blocks
  end.

(** The pairs of the last two turns of a request. *)
Definition request_pairs (request : ClaudeMessagesRequest.t) : nat :=
  match rev (ClaudeMessagesRequest.messages request) with
  | last :: second_last :: _ =>
      match content second_last, content last with
      | Blocks assistant_blocks, Blocks user_blocks =>
          correlated_pairs assistant_blocks user_blocks
      | _, _ => 0
      end
  | _ => 0
  end.

(** *** The character count of a token-count request, as claimed *)

Definition zsum (l : list Z) : Z := fold_right Z.add 0%Z l.

Definition block_text_length (block : ContentBlock) : Z :=
  match block with
  | TextBlock text => Py.len text
  | OtherBlock (Some (Some text)) => Py.len text
  | _ => 0%Z
  end.

Definition message_text_length (msg : Message) : Z :=
  match content msg with
  | NoContent => 0%Z
  | Text s => Py.len s
  | Blocks blocks => zsum (map block_text_length blocks)
  end.

Definition system_text_length (system : option SystemPrompt) : Z :=
  match system with
  | None => 0%Z
  | Some (SystemText s) => Py.len s
  | Some (SystemBlocks blocks) =>
      zsum (map (fun b => match sys_text b with
                          | Some text => Py.len text
                          | None => 0%Z
                          end) blocks)
  end.

Definition character_count (request : ClaudeTokenCountRequest.t) : Z :=
  (system_text_length (ClaudeTokenCountRequest.system request)
   + zsum (map message_text_length (ClaudeTokenCountRequest.messages request)))%Z.

(** *** The domain filters of a WebSearch input *)

(** A list of domains that is absent or empty. *)
Definition no_filter (o : option json) : Prop := o = None \/ o = Some (JArr []).

(** *** What the interceptor does to a block *)

(** [user_block] is pending for the WebSearch block [assistant_block]. *)
Definition pending_for (assistant_block user_block : ContentBlock) : bool :=
  unresolved_search [user_block] assistant_block.

(** The content of [b] is replaced in [b'] by the serialisation of what the
    Search Adapter returned for the input of a WebSearch block of
    [assistant_blocks] with the correlation id of [b]. *)
Definition injected (api_key : string)
    (network : trace -> http_request -> outcome http_response)
    (assistant_blocks : list ContentBlock) (b b' : ContentBlock) : Prop :=
  exists tool_use_id s input t1 t2 v,
    b = ToolResultBlock tool_use_id (ResultStr s)
    /\ In (ToolUseBlock tool_use_id "WebSearch" input) assistant_blocks
    /\ process_websearch_via_exa api_key network input t1 = (Ok v, t2)
    /\ b' = ToolResultBlock tool_use_id (ResultStr (dumps false v)).

(** What the interceptor leaves of a block of the last user turn. *)
Definition outcome_of (api_key : string)
    (network : trace -> http_request -> outcome http_response)
    (assistant_blocks : list ContentBlock) (b b' : ContentBlock) : Prop :=
  if matched assistant_blocks b
  then injected api_key network assistant_blocks b b'
  else b' = b.

(** No event of the trace is a run of the interceptor's except branch. *)
Definition quiet (t : trace) : Prop := existsb is_search_failed t = false.

(** The correlation id of a [tool_result] block with a string content. *)
Definition string_result_id (b : ContentBlock) : option string :=
  match b with
  | ToolResultBlock tool_use_id (ResultStr _) => Some tool_use_id
  | _ => None
  end.

(** *** Runs of the streaming converter *)

(** The state after a sequence of upstream deltas, and the events produced
    on the way (without the closing of the block left open). *)
Fixpoint steps (state : option OpenBlock) (upstream : list Delta)
  : option OpenBlock * list Event :=
  match upstream with
  | [] => (state, [])
  | d :: upstream' =>
      let (state', out) := step state d in
      let (state'', out') := steps state' upstream' in
      (state'', (out ++ out')%list)
  end.

(** The open block, if any, has its index in [Q]. *)
Definition state_in (Q : nat -> Prop) (state : option OpenBlock) : Prop :=
  match state with
  | None => True
  | Some b => Q (block_index b)
  end.

End Notions.

Import Notions.

(* ================================================================== *)
(** ** Scenarios *)
(* ================================================================== *)

Module Scenarios.

(** The request of [test_websearch.py]. *)
Definition test_request : ClaudeMessagesRequest.t :=
  {| ClaudeMessagesRequest.model := "claude-3-opus-20240229";
     ClaudeMessagesRequest.max_tokens := 1024;
     ClaudeMessagesRequest.messages :=
       [ {| role := user;
            content := Text "What are the latest developments in quantum computing in 2025?" |};
         {| role := assistant;
            content := Blocks
              [ TextBlock "I'll search for the latest developments in quantum computing in 2025.";
                ToolUseBlock "test_tool_123" "WebSearch"
                  [("query", JStr "quantum computing breakthroughs 2025 latest developments")] ] |};
         {| role := user;
            content := Blocks
              [ ToolResultBlock "test_tool_123" (ResultStr "Pending search results...") ] |} ];
     ClaudeMessagesRequest.system := None;
     ClaudeMessagesRequest.stream := false |}.

(** A conversation whose last two turns hold a WebSearch call and
    [results] as the blocks of the user turn. *)
Definition search_request_with (calls results : list ContentBlock)
  : ClaudeMessagesRequest.t :=
  {| ClaudeMessagesRequest.model := "claude-3-opus-20240229";
     ClaudeMessagesRequest.max_tokens := 1024;
     ClaudeMessagesRequest.messages :=
       [ {| role := user; content := Text "What is new in quantum computing?" |};
         {| role := assistant; content := Blocks calls |};
         {| role := user; content := Blocks results |} ];
     ClaudeMessagesRequest.system := None;
     ClaudeMessagesRequest.stream := false |}.

Definition one_call : list ContentBlock :=
  [ ToolUseBlock "toolu_1" "WebSearch" [("query", JStr "quantum computing breakthroughs 2025")] ].

(** One placeholder result for the call. *)
Definition one_placeholder : list ContentBlock :=
  [ ToolResultBlock "toolu_1" (ResultStr "Web search results for query: quantum") ].

(** Two placeholder results carrying the id of the one call. *)
Definition two_placeholders : list ContentBlock :=
  [ ToolResultBlock "toolu_1" (ResultStr "API Error: 400");
    ToolResultBlock "toolu_1" (ResultStr "Did 0 searches") ].

(** A search service that is down: every request ends in a transport error. *)
Definition unreachable (t : trace) (req : http_request) : outcome http_response :=
  Raised (Exception "All connection attempts failed").

(** A search service that answers every request with one result. *)
Definition answering (t : trace) (req : http_request) : outcome http_response :=
  Ok {| status_code := 200;
        text := "";
        json_body := Ok (JObj [ ("requestId", JStr "r1");
                                ("results", JArr [JObj [("title", JStr "Qubits")]]) ]) |}.

(** A search service that refuses every request. *)
Definition refusing (t : trace) (req : http_request) : outcome http_response :=
  Ok {| status_code := 429; text := "rate limited";
        json_body := Raised (Exception "Expecting value") |}.

(** A body with a score that is no number. *)
Definition nan_body : json :=
  JObj [ ("requestId", JStr "r1");
         ("results", JArr [JObj [("title", JStr "Qubits"); ("score", JFloat Py.FNaN)]]) ].

(** A search service that answers every request with that body. *)
Definition answering_nan (t : trace) (req : http_request) : outcome http_response :=
  Ok {| status_code := 200; text := ""; json_body := Ok nan_body |}.

End Scenarios.

(* ================================================================== *)
(** ** src/api/endpoints.py: the status endpoints *)
(* ================================================================== *)

Module StatusEndpoints.

(** The attributes and the method of [config] that the status endpoints
    read ([src/core/config.py] is not part of the sources), taken as
    given: [api_key_valid] is what [config.validate_api_key()] answers. *)
Record Config : Type := {
  openai_api_key : option string;
  openai_base_url : string;
  anthropic_api_key : option string;
  max_tokens_limit : Z;
  big_model : string;
  small_model : string;
  api_key_valid : bool
}.

(** [bool(x)] for an optional string. *)
Definition bool_of (o : option string) : json := JBool (Py.truthy_opt o).

(** [health_check]; [now] is [datetime.now().isoformat()]. *)
Definition health_check (config : Config) (now : string) : dict :=
  [ ("status", JStr "healthy");
    ("timestamp", JStr now);
    ("openai_api_configured", bool_of (openai_api_key config));
    ("api_key_valid", JBool (api_key_valid config));
    ("client_api_key_validation", bool_of (anthropic_api_key config)) ].

(** [root] *)
Definition root (config : Config) : dict :=
  [ ("message", JStr "Claude-to-OpenAI API Proxy v1.0.0");
    ("status", JStr "running");
    ("config",
      JObj [ ("openai_base_url", JStr (openai_base_url config));
             ("max_tokens_limit", JInt (max_tokens_limit config));
             ("api_key_configured", bool_of (openai_api_key config));
             ("client_api_key_validation", bool_of (anthropic_api_key config));
             ("big_model", JStr (big_model config));
             ("small_model", JStr (small_model config)) ]);
    ("endpoints",
      JObj [ ("messages", JStr "/v1/messages");
             ("count_tokens", JStr "/v1/messages/count_tokens");
             ("health", JStr "/health");
             ("test_connection", JStr "/test-connection") ]) ].

End StatusEndpoints.

(* ================================================================== *)
(** ** Further notions *)
(* ================================================================== *)

Module Further.

(** The member [k] of an object, when [v] is an object that has it. *)
Definition member (k : string) (v : option json) : option json :=
  match v with
  | Some (JObj members) => lookup k members
  | _ => None
  end.

(** The keys of a dictionary, in order. *)
Definition keys (d : dict) : list string := map fst d.

(** The correlation ids of the WebSearch [tool_use] blocks. *)
Fixpoint websearch_ids (assistant_blocks : list ContentBlock) : list string :=
  match assistant_blocks with
  | [] => []
  | ToolUseBlock id name _ :: rest =>
      if String.eqb name "WebSearch" then id :: websearch_ids rest
      else websearch_ids rest
  | _ :: rest => websearch_ids rest
  end.

(** The number of matched blocks of the user turn. *)
Definition matched_count (assistant_blocks user_blocks : list ContentBlock) : nat :=
  length (filter (matched assistant_blocks) user_blocks).

(** An event that a run of the interceptor may add to the trace: an
    invocation of the Search Adapter with the input of a WebSearch block of
    the assistant turn, or, when there is a key, the request that [search]
    builds from such an input. *)
Definition search_event (api_key : string) (assistant_blocks : list ContentBlock)
    (ev : event) : Prop :=
  match ev with
  | SearchCall tool_input =>
      exists id, In (ToolUseBlock id "WebSearch" tool_input) assistant_blocks
  | HttpPost req =>
      Py.truthy_str api_key = true
      /\ exists id tool_input,
           In (ToolUseBlock id "WebSearch" tool_input) assistant_blocks
           /\ req = search_request api_key (_map_websearch_to_exa tool_input)
  | SearchFailed _ => False
  end.

(** The assistant blocks of the second-to-last turn of a request. *)
Definition assistant_blocks_of (request : ClaudeMessagesRequest.t) : list ContentBlock :=
  match rev (ClaudeMessagesRequest.messages request) with
  | _ :: second_last :: _ =>
      match content second_last with
      | Blocks blocks => blocks
      | _ => []
      end
  | _ => []
  end.

(** The content that a matched block gets when no key is configured. *)
Definition missing_key_content : string :=
  dumps false (_create_error_response "EXA_API_KEY not configured").

(** A block that adds to the character count. *)
Definition has_text (block : ContentBlock) : bool :=
  match block with
  | TextBlock _ => true
  | OtherBlock (Some (Some _)) => true
  | _ => false
  end.

(** A message without the blocks that have no text. *)
Definition text_only (msg : Message) : Message :=
  match content msg with
  | Blocks blocks => {| role := role msg; content := Blocks (filter has_text blocks) |}
  | _ => msg
  end.

(** The answer of [count_tokens] as a number. *)
Definition input_tokens (answer : dict) : Z :=
  match lookup "input_tokens" answer with
  | Some (JInt n) => n
  | _ => 0%Z
  end.

(** Every body that the search service answers decodes to a value without
    infinity and NaN. *)
Definition finite_bodies (network : trace -> http_request -> outcome http_response)
  : Prop :=
  forall t req response body,
    network t req = Ok response -> json_body response = Ok body ->
    finite_numbers body = true.

(** A block as the request has it and as a run of the interceptor holds
    it: the same block, or a placeholder result that has been answered and
    keeps its correlation id. *)
Definition kept_or_answered (b b1 : ContentBlock) : Prop :=
  b1 = b
  \/ exists id s,
       b = ToolResultBlock id (ResultStr s) /\ placeholder s = true
       /\ string_result_id b1 = Some id.

(** The number of pairs of a WebSearch [tool_use] block and of a
    [tool_result] block with its correlation id whose content is a string
    with a placeholder marker. *)
Fixpoint pending_pairs (assistant_blocks user_blocks : list ContentBlock) : nat :=
  match assistant_blocks with
  | [] => 0
  | a :: rest =>
      length (filter (pending_for a) user_blocks) + pending_pairs rest user_blocks
  end.

(** The pending pairs of the last two turns of a request, when these are
    an assistant turn and a user turn, both with blocks. *)
Definition placeholder_pairs (request : ClaudeMessagesRequest.t) : nat :=
  match rev (ClaudeMessagesRequest.messages request) with
  | last :: second_last :: _ =>
      match role second_last, content second_last, role last, content last with
      | assistant, Blocks assistant_blocks, user, Blocks user_blocks =>
          pending_pairs assistant_blocks user_blocks
      | _, _, _, _ => 0
      end
  | _ => 0
  end.

End Further.

Import Further.

(* ================================================================== *)
(** * Properties *)
(* ================================================================== *)

(** ** Python primitives *)

Example replace_bearer : Py.replace "Bearer abc" "Bearer " "" = "abc".
Proof. reflexivity. Qed.

Example replace_all_occurrences :
  Py.replace "Bearer a Bearer b" "Bearer " "" = "a b".
Proof. reflexivity. Qed.

Example str_of_Z_examples :
  Py.str_of_Z 200 = "200" /\ Py.str_of_Z 0 = "0" /\ Py.str_of_Z (-17) = "-17".
Proof. repeat split; reflexivity. Qed.

Example repr_float_examples :
  Py.repr_float (Py.FFinite false 15 1) = "1.5"
  /\ Py.repr_float (Py.FFinite false 1 17) = "1e+16"
  /\ Py.repr_float (Py.FFinite false 1 16) = "1000000000000000.0"
  /\ Py.repr_float (Py.FFinite false 1 (-3)) = "0.0001"
  /\ Py.repr_float (Py.FFinite true 15 (-4)) = "-1.5e-05"
  /\ Py.repr_float (Py.FFinite false 12345 3) = "123.45"
  /\ Py.repr_float (Py.FFinite false 1 309) = "1e+308"
  /\ Py.repr_float (Py.FZero true) = "-0.0".
Proof. repeat split; reflexivity. Qed.

Example dumps_example :
  dumps false (JObj [("a", JArr [JInt 1; JNull; JBool true]); ("b", JStr "x\y")])
  = "{" ++ quote false "a" ++ ": [1, null, true], " ++ quote false "b" ++ ": "
        ++ String dquote ("x\\y" ++ String dquote "}").
Proof. reflexivity. Qed.

Example is_json_examples :
  is_json (dumps false (JObj [("a", JArr [JInt 1; JNull; JBool true]); ("b", JStr "x\y")])) = true
  /\ is_json "[1, 2" = false /\ is_json "{1: 2}" = false /\ is_json "01" = false
  /\ is_json " [ -1.5e3 , {} ] " = true /\ is_json "Pending search results..." = false
  /\ is_json "[nul]" = false /\ is_json "[1,]" = false /\ is_json "-" = false
  /\ is_json "tru" = false /\ is_json "[[[[]]], false, null]" = true.
Proof. repeat split; reflexivity. Qed.

Lemma contains_cons_false needle c hay :
  Py.contains needle (String c hay) = false ->
  String.prefix needle (String c hay) = false /\ Py.contains needle hay = false.
Proof.
  cbn [Py.contains]. destruct (String.prefix needle (String c hay)); [discriminate|auto].
Qed.

Lemma replace_absent old new s :
  Py.contains old s = false -> Py.replace_from 0 old new s = s.
Proof.
  induction s as [|c s IH]; intros H; [reflexivity|].
  apply contains_cons_false in H as [Hp Hc].
  cbn [Py.replace_from]. rewrite Hp, (IH Hc). reflexivity.
Qed.

Lemma bearer_stripped k :
  Py.contains "Bearer " k = false -> Py.replace ("Bearer " ++ k) "Bearer " "" = k.
Proof.
  intros H. unfold Py.replace. cbn.
  replace (String.prefix "" k) with true by (destruct k; reflexivity).
  now apply replace_absent.
Qed.

Lemma len_nonneg s : (0 <= Py.len s)%Z.
Proof. unfold Py.len. lia. Qed.

Arguments Py.len : simpl never.

(** ** Dictionaries *)

Lemma lookup_setitem_eq d k v : lookup k (setitem d k v) = Some v.
Proof.
  induction d as [|[k' v'] d IH]; cbn.
  - now rewrite String.eqb_refl.
  - destruct (String.eqb k' k) eqn:E; cbn; rewrite E; auto.
Qed.

Lemma lookup_setitem_ne d k k' v :
  k <> k' -> lookup k' (setitem d k v) = lookup k' d.
Proof.
  intros Hne. induction d as [|[k0 v0] d IH]; cbn.
  - destruct (String.eqb k k') eqn:E; [apply String.eqb_eq in E; contradiction|reflexivity].
  - destruct (String.eqb k0 k) eqn:E; cbn.
    + apply String.eqb_eq in E. subst k0.
      destruct (String.eqb k k') eqn:E'; [apply String.eqb_eq in E'; contradiction|reflexivity].
    + now rewrite IH.
Qed.

(** ** JSON texts *)

(** *** Strings *)

Lemma append_assoc (a b c : string) : (a ++ b) ++ c = a ++ (b ++ c).
Proof. induction a as [|x a IH]; cbn; [reflexivity|now rewrite IH]. Qed.

Lemma append_nil_r (a : string) : a ++ "" = a.
Proof. induction a as [|x a IH]; cbn; [reflexivity|now rewrite IH]. Qed.

Lemma length_append (a b : string) :
  String.length (a ++ b) = String.length a + String.length b.
Proof. induction a as [|x a IH]; cbn; [reflexivity|now rewrite IH]. Qed.

(** *** The unfolding of the scanners *)

Lemma scan_value_S fuel c r :
  scan_value (S fuel) (String c r)
  = if Ascii.eqb c "["%char then
      match skip_ws r with
      | String c1 r1 =>
          if Ascii.eqb c1 "]"%char then Some r1 else scan_elements fuel (String c1 r1)
      | EmptyString => None
      end
    else if Ascii.eqb c "{"%char then
      match skip_ws r with
      | String c1 r1 =>
          if Ascii.eqb c1 "}"%char then Some r1 else scan_members fuel (String c1 r1)
      | EmptyString => None
      end
    else if Ascii.eqb c dquote then scan_string r
    else if Ascii.eqb c "n"%char then expect "ull" r
    else if Ascii.eqb c "t"%char then expect "rue" r
    else if Ascii.eqb c "f"%char then expect "alse" r
    else scan_number (String c r).
Proof. reflexivity. Qed.

Lemma scan_elements_S fuel s :
  scan_elements (S fuel) s
  = match scan_value fuel s with
    | Some r =>
        match skip_ws r with
        | String c r' =>
            if Ascii.eqb c ","%char then scan_elements fuel (skip_ws r')
            else if Ascii.eqb c "]"%char then Some r'
            else None
        | EmptyString => None
        end
    | None => None
    end.
Proof. reflexivity. Qed.

Lemma scan_members_S fuel q r :
  scan_members (S fuel) (String q r)
  = if Ascii.eqb q dquote then
      match scan_string r with
      | Some r1 =>
          match skip_ws r1 with
          | String colon r2 =>
              if Ascii.eqb colon ":"%char then
                match scan_value fuel (skip_ws r2) with
                | Some r3 =>
                    match skip_ws r3 with
                    | String c r4 =>
                        if Ascii.eqb c ","%char then scan_members fuel (skip_ws r4)
                        else if Ascii.eqb c "}"%char then Some r4
                        else None
                    | EmptyString => None
                    end
                | None => None
                end
              else None
          | EmptyString => None
          end
      | None => None
      end
    else None.
Proof. reflexivity. Qed.

(** *** Numbers *)

Lemma ends_value_cases c r :
  ends_value (String c r) = true -> c = ","%char \/ c = "]"%char \/ c = "}"%char.
Proof.
  cbn. rewrite !orb_true_iff, !Ascii.eqb_eq. tauto.
Qed.

Lemma skip_digits_end rest : ends_value rest = true -> skip_digits rest = rest.
Proof.
  destruct rest as [|c r]; [reflexivity|]. intros H.
  apply ends_value_cases in H as [-> | [-> | ->]]; reflexivity.
Qed.

Lemma skip_digits_app ds rest :
  all_digits ds = true -> ends_value rest = true -> skip_digits (ds ++ rest) = rest.
Proof.
  intros Hd Hr. induction ds as [|c ds IH]; cbn in *.
  - now apply skip_digits_end.
  - apply andb_true_iff in Hd as [Hc Hd]. rewrite Hc. auto.
Qed.

Lemma scan_frac_end rest : ends_value rest = true -> scan_frac rest = rest.
Proof.
  destruct rest as [|c [|c' r]]; try reflexivity. intros H.
  apply ends_value_cases in H as [-> | [-> | ->]]; reflexivity.
Qed.

Lemma scan_exp_end rest : ends_value rest = true -> scan_exp rest = rest.
Proof.
  destruct rest as [|c r]; [reflexivity|]. intros H.
  apply ends_value_cases in H as [-> | [-> | ->]]; reflexivity.
Qed.

Lemma string_of_uint_digits d : all_digits (NilEmpty.string_of_uint d) = true.
Proof. induction d; cbn; auto. Qed.

Lemma to_uint_normal n : Decimal.unorm (N.to_uint n) = N.to_uint n.
Proof.
  rewrite <- (DecimalN.Unsigned.of_to n) at 2.
  now rewrite DecimalN.Unsigned.to_of.
Qed.

(** The decimal writing of a natural number: a zero alone, or a digit from
    1 to 9 followed by digits. *)
Lemma str_of_N_shape n :
  exists c s, Py.str_of_N n = String c s /\ all_digits s = true
              /\ ((c = "0"%char /\ s = "") \/ (Ascii.eqb c "0" = false /\ is_digit19 c = true)).
Proof.
  unfold Py.str_of_N. pose proof (to_uint_normal n) as H.
  destruct (N.to_uint n) as [|d|d|d|d|d|d|d|d|d|d] eqn:E;
    try (cbn; eexists; eexists; split; [reflexivity|];
         split; [apply string_of_uint_digits|right; split; reflexivity]).
  - exfalso. revert H. apply unorm_nonnil.
  - rewrite unorm_D0 in H. unfold Decimal.unorm in H.
    destruct (Decimal.nzhead d) eqn:Hz;
      try (exfalso; rewrite <- Hz in H; revert H; apply nzhead_nonzero).
    injection H as <-. cbn. eexists; eexists. split; [reflexivity|]. split; [reflexivity|].
    left. split; reflexivity.
Qed.

Lemma scan_unsigned_str_of_N n rest :
  ends_value rest = true -> scan_unsigned (Py.str_of_N n ++ rest) = Some rest.
Proof.
  intros Hr. destruct (str_of_N_shape n) as (c & s & -> & Hs & [[-> ->] | [H0 H19]]).
  - cbn. now rewrite scan_frac_end, scan_exp_end.
  - cbn [append scan_unsigned]. rewrite H0, H19.
    now rewrite skip_digits_app, scan_frac_end, scan_exp_end.
Qed.

(** A character that starts a number is none of the other starts of a
    value, and no white space. *)
Lemma number_start c :
  c = "-"%char \/ is_digit c = true ->
  Ascii.eqb c "[" = false /\ Ascii.eqb c "{" = false /\ Ascii.eqb c dquote = false
  /\ Ascii.eqb c "n" = false /\ Ascii.eqb c "t" = false /\ Ascii.eqb c "f" = false
  /\ Ascii.eqb c "]" = false /\ Ascii.eqb c "}" = false /\ is_ws c = false.
Proof.
  intros [-> | H]; [repeat split|].
  destruct c as [[|] [|] [|] [|] [|] [|] [|] [|]]; try discriminate H; repeat split.
Qed.

Lemma digit19_digit c : is_digit19 c = true -> is_digit c = true.
Proof.
  unfold is_digit19, is_digit. rewrite !andb_true_iff, !Nat.leb_le. lia.
Qed.

Lemma digit_not_minus c : is_digit c = true -> Ascii.eqb c "-" = false.
Proof.
  destruct c as [[|] [|] [|] [|] [|] [|] [|] [|]]; try discriminate; reflexivity.
Qed.

Lemma str_of_N_head n :
  exists c s, Py.str_of_N n = String c s /\ is_digit c = true.
Proof.
  destruct (str_of_N_shape n) as (c & s & E & _ & [[-> _] | [_ H]]); eauto using digit19_digit.
Qed.

Lemma str_of_Z_head z :
  exists c s, Py.str_of_Z z = String c s /\ (c = "-"%char \/ is_digit c = true).
Proof.
  unfold Py.str_of_Z. destruct (z <? 0)%Z; [eauto|].
  destruct (str_of_N_head (Z.abs_N z)) as (c & s & E & H). eauto.
Qed.

Lemma scan_number_str_of_Z z rest :
  ends_value rest = true -> scan_number (Py.str_of_Z z ++ rest) = Some rest.
Proof.
  intros Hr. unfold Py.str_of_Z. destruct (z <? 0)%Z.
  - cbn. now apply scan_unsigned_str_of_N.
  - destruct (str_of_N_head (Z.abs_N z)) as (c & s & E & H).
    pose proof (scan_unsigned_str_of_N (Z.abs_N z) rest Hr) as U.
    rewrite E in *. cbn [append scan_number]. now rewrite (digit_not_minus c H).
Qed.

(** *** Floats *)

Lemma skip_digits_until ds rest :
  all_digits ds = true -> skip_digits rest = rest -> skip_digits (ds ++ rest) = rest.
Proof.
  intros Hd Hr. induction ds as [|c ds IH]; cbn in *; [exact Hr|].
  apply andb_true_iff in Hd as [Hc Hd]. rewrite Hc. auto.
Qed.

Lemma all_digits_app a b :
  all_digits a = true -> all_digits b = true -> all_digits (a ++ b) = true.
Proof.
  intros Ha Hb. induction a as [|c a IH]; cbn in *; [exact Hb|].
  apply andb_true_iff in Ha as [Hc Ha]. rewrite Hc. auto.
Qed.

Lemma all_digits_zeros n : all_digits (Py.zeros n) = true.
Proof. induction n; cbn; auto. Qed.

Lemma all_digits_take n s : all_digits s = true -> all_digits (Py.take n s) = true.
Proof.
  revert s. induction n as [|n IH]; intros [|c s] H; try reflexivity.
  cbn in H. apply andb_true_iff in H as [Hc Hs]. cbn. rewrite Hc. now apply IH.
Qed.

Lemma all_digits_drop n s : all_digits s = true -> all_digits (Py.drop n s) = true.
Proof.
  revert s. induction n as [|n IH]; intros [|c s] H; try reflexivity; try exact H.
  cbn in H. apply andb_true_iff in H as [Hc Hs]. cbn. now apply IH.
Qed.

Lemma drop_nonempty n s :
  n < String.length s -> exists c r, Py.drop n s = String c r.
Proof.
  revert s. induction n as [|n IH]; intros [|c s] H; cbn in *; try lia; eauto.
  apply IH. lia.
Qed.

(** The decimal writing of a positive number: a digit from 1 to 9
    followed by digits. *)
Lemma str_of_pos_shape p :
  exists c s, Py.str_of_N (Npos p) = String c s /\ all_digits s = true
              /\ Ascii.eqb c "0" = false /\ is_digit19 c = true.
Proof.
  destruct (str_of_N_shape (Npos p)) as (c & s & E & Hs & [[-> ->] | [H0 H19]]).
  - exfalso. unfold Py.str_of_N in E. cbn [N.to_uint] in E.
    pose proof (DecimalPos.Unsigned.to_uint_nonzero p) as Hz.
    pose proof (DecimalPos.Unsigned.to_uint_nonnil p) as Hn.
    destruct (Pos.to_uint p) as [|d|d|d|d|d|d|d|d|d|d]; try discriminate E;
      try (now apply Hn).
    apply Hz. cbn in E. destruct d; [reflexivity|discriminate E..].
  - exists c, s. auto.
Qed.

Lemma exponent_text_shape e :
  exists sg d ds,
    Py.exponent_text e = String sg (String d ds)
    /\ (Ascii.eqb sg "+" || Ascii.eqb sg "-") = true
    /\ is_digit d = true /\ all_digits ds = true.
Proof.
  unfold Py.exponent_text.
  destruct (str_of_N_shape (Z.abs_N e)) as (c & s & -> & Hs & Hc).
  assert (Hd : is_digit c = true).
  { destruct Hc as [[-> _] | [_ H]]; [reflexivity|now apply digit19_digit]. }
  exists (if (e <? 0)%Z then "-" else "+")%char.
  destruct (String.length (String c s) <? 2)%nat.
  - exists "0"%char, (String c s). split; [reflexivity|].
    split; [now destruct (e <? 0)%Z|]. split; [reflexivity|]. cbn. now rewrite Hd.
  - exists c, s. split; [reflexivity|]. split; [now destruct (e <? 0)%Z|]. auto.
Qed.

Lemma scan_exp_exponent e rest :
  ends_value rest = true ->
  scan_exp (String "e" (Py.exponent_text e ++ rest)) = rest.
Proof.
  intros Hr. destruct (exponent_text_shape e) as (sg & d & ds & -> & Hsg & Hd & Hds).
  cbn [append scan_exp Ascii.eqb Bool.eqb orb]. rewrite Hsg.
  cbn [scan_digits1]. rewrite Hd. now apply skip_digits_app.
Qed.

Lemma skip_digits_e s : skip_digits (String "e" s) = String "e" s.
Proof. reflexivity. Qed.

Lemma skip_digits_dot s : skip_digits (String "." s) = String "." s.
Proof. reflexivity. Qed.

Lemma scan_frac_e s : scan_frac (String "e" s) = String "e" s.
Proof. destruct s; reflexivity. Qed.

(** A fraction: a dot, digits (at least one), and what follows. *)
Lemma scan_frac_digits d ds rest :
  is_digit d = true -> all_digits ds = true -> skip_digits rest = rest ->
  scan_frac (String "." (String d (ds ++ rest))) = rest.
Proof.
  intros Hd Hds Hr. cbn [scan_frac Ascii.eqb Bool.eqb andb]. rewrite Hd.
  now apply skip_digits_until.
Qed.

Lemma all_digits_cons_inv s :
  all_digits s = true -> s <> "" -> exists d ds, s = String d ds /\ is_digit d = true
                                               /\ all_digits ds = true.
Proof.
  destruct s as [|d ds]; [contradiction|]. cbn. intros H _.
  apply andb_true_iff in H as [Hd Hds]. eauto.
Qed.

(** The text of a finite float other than zero, without its sign, is
    scanned as a number. *)
Lemma scan_unsigned_repr_finite p decpt rest :
  ends_value rest = true ->
  scan_unsigned (Py.repr_finite false (Py.str_of_N (Npos p)) decpt ++ rest) = Some rest.
Proof.
  intros Hr. unfold Py.repr_finite. cbn [append].
  destruct (str_of_pos_shape p) as (c & ds & -> & Hds & H0 & H19).
  pose proof (digit19_digit c H19) as Hc.
  pose proof (skip_digits_end rest Hr) as Hrest.
  destruct ((decpt <=? -4)%Z || (16 <? decpt)%Z).
  - (* scientific notation *)
    destruct ds as [|d ds'].
    + cbn [append]. rewrite ?append_assoc. cbn [append scan_unsigned]. rewrite H0, H19.
      rewrite skip_digits_e, scan_frac_e. f_equal. now apply scan_exp_exponent.
    + cbn [append]. rewrite ?append_assoc. cbn [append scan_unsigned]. rewrite H0, H19.
      rewrite skip_digits_dot.
      cbn in Hds. apply andb_true_iff in Hds as [Hd Hds'].
      rewrite scan_frac_digits; [|exact Hd|exact Hds'|reflexivity].
      f_equal. now apply scan_exp_exponent.
  - destruct (decpt <=? 0)%Z eqn:Hpos.
    + (* 0.000ddd *)
      cbn [append]. rewrite ?append_assoc. cbn [append scan_unsigned Ascii.eqb Bool.eqb].
      assert (Hz : all_digits (Py.zeros (Z.to_nat (- decpt)) ++ String c ds) = true).
      { apply all_digits_app; [apply all_digits_zeros|]. cbn. now rewrite Hc. }
      destruct (all_digits_cons_inv _ Hz) as (d & ds' & E & Hd & Hds').
      { destruct (Py.zeros (Z.to_nat (- decpt))); discriminate. }
      change (String c (ds ++ rest)) with (String c ds ++ rest).
      rewrite <- append_assoc, E. cbn [append].
      rewrite scan_frac_digits; [|exact Hd|exact Hds'|exact Hrest].
      f_equal. now apply scan_exp_end.
    + destruct (decpt <? Z.of_nat (String.length (String c ds)))%Z eqn:Hlt.
      * (* ddd.ddd *)
        apply Z.ltb_lt in Hlt.
        destruct (Z.to_nat decpt) as [|k] eqn:Hk.
        { apply Z.leb_gt in Hpos. lia. }
        cbn [Py.take Py.drop append scan_unsigned]. rewrite H0, H19.
        rewrite append_assoc.
        assert (Hk' : k < String.length ds) by (cbn [String.length] in Hlt; lia).
        destruct (drop_nonempty k ds Hk') as (d & ds' & E).
        pose proof (all_digits_drop k ds Hds) as Hdrop. rewrite E in Hdrop. cbn in Hdrop.
        apply andb_true_iff in Hdrop as [Hd Hds'].
        rewrite skip_digits_until;
          [|now apply all_digits_take|rewrite E; reflexivity].
        rewrite E. cbn [append].
        rewrite scan_frac_digits; [|exact Hd|exact Hds'|exact Hrest].
        f_equal. now apply scan_exp_end.
      * (* ddd000.0 *)
        cbn [append]. rewrite ?append_assoc. cbn [append scan_unsigned]. rewrite H0, H19.
        rewrite <- append_assoc.
        rewrite skip_digits_until;
          [|apply all_digits_app; [exact Hds|apply all_digits_zeros]|reflexivity].
        change (String "." (String "0" rest))
          with (String "." (String "0" ("" ++ rest))).
        rewrite scan_frac_digits; [|reflexivity|reflexivity|exact Hrest].
        f_equal. now apply scan_exp_end.
Qed.

Lemma repr_finite_sign negative digits decpt :
  Py.repr_finite negative digits decpt
  = (if negative then "-" else "") ++ Py.repr_finite false digits decpt.
Proof. reflexivity. Qed.

Lemma repr_finite_head p decpt :
  exists c s,
    Py.repr_finite false (Py.str_of_N (Npos p)) decpt = String c s /\ is_digit c = true.
Proof.
  unfold Py.repr_finite. cbn [append].
  destruct (str_of_pos_shape p) as (c & ds & -> & Hds & H0 & H19).
  pose proof (digit19_digit c H19) as Hc.
  destruct ((decpt <=? -4)%Z || (16 <? decpt)%Z).
  - destruct ds; cbn [append]; eauto.
  - destruct (decpt <=? 0)%Z eqn:Hpos; [cbn [append]; eauto|].
    destruct (decpt <? Z.of_nat (String.length (String c ds)))%Z; [|cbn [append]; eauto].
    apply Z.leb_gt in Hpos. destruct (Z.to_nat decpt) eqn:Hk; [lia|].
    cbn [Py.take append]. eauto.
Qed.

(** The text of a finite float is scanned as a number. *)
Lemma scan_number_float_text x rest :
  finite_float x = true -> ends_value rest = true ->
  scan_number (float_text x ++ rest) = Some rest.
Proof.
  intros Hx Hr. pose proof (skip_digits_end rest Hr) as Hrest.
  destruct x as [negative|negative p decpt|negative|]; try discriminate Hx.
  - assert (Z0 : scan_unsigned ("0.0" ++ rest) = Some rest).
    { cbn [append scan_unsigned Ascii.eqb Bool.eqb].
      change (String "." (String "0" rest)) with (String "." (String "0" ("" ++ rest))).
      rewrite scan_frac_digits; [|reflexivity|reflexivity|exact Hrest].
      f_equal. now apply scan_exp_end. }
    destruct negative; exact Z0.
  - cbn [float_text Py.repr_float]. rewrite repr_finite_sign.
    pose proof (scan_unsigned_repr_finite p decpt rest Hr) as U.
    destruct negative; cbn [append].
    + exact U.
    + destruct (repr_finite_head p decpt) as (c & s & E & Hc).
      rewrite E in *. cbn [append scan_number] in *.
      now rewrite (digit_not_minus c Hc).
Qed.

Lemma float_text_head x :
  exists c s, float_text x = String c s
              /\ if finite_float x
                 then c = "-"%char \/ is_digit c = true
                 else c = "N"%char \/ c = "I"%char \/ c = "-"%char.
Proof.
  destruct x as [negative|negative p decpt|negative|].
  - destruct negative; eexists; eexists; (split; [reflexivity|]); cbn; auto.
  - cbn [float_text Py.repr_float finite_float]. rewrite repr_finite_sign.
    destruct (repr_finite_head p decpt) as (c & s & E & Hc). rewrite E.
    destruct negative; eexists; eexists; (split; [reflexivity|]); auto.
  - destruct negative; eexists; eexists; (split; [reflexivity|]); cbn; auto.
  - eexists; eexists. split; [reflexivity|]. cbn. auto.
Qed.

Lemma float_text_starts_value x : starts_value (float_text x).
Proof.
  destruct (float_text_head x) as (c & s & E & H). exists c, s. split; [exact E|].
  destruct (finite_float x).
  - destruct (number_start c H) as (_ & _ & _ & _ & _ & _ & H1 & H2 & H3). auto.
  - destruct H as [-> | [-> | ->]]; repeat split; reflexivity.
Qed.

(** *** String literals *)

Lemma scan_string_escape_char ensure_ascii c r :
  scan_string (escape_char ensure_ascii c ++ r) = scan_string r.
Proof.
  destruct ensure_ascii;
    destruct c as [[|] [|] [|] [|] [|] [|] [|] [|]]; reflexivity.
Qed.

Lemma scan_string_escape ensure_ascii s rest :
  scan_string (escape ensure_ascii s ++ String dquote rest) = Some rest.
Proof.
  induction s as [|c s IH]; [reflexivity|].
  cbn [escape]. now rewrite append_assoc, scan_string_escape_char.
Qed.

Lemma quote_append ensure_ascii s rest :
  quote ensure_ascii s ++ rest
  = String dquote (escape ensure_ascii s ++ String dquote rest).
Proof. unfold quote. cbn. now rewrite append_assoc. Qed.

(** *** Values *)

Lemma skip_ws_head c r : is_ws c = false -> skip_ws (String c r) = String c r.
Proof. cbn. now intros ->. Qed.

Lemma dumps_head ensure_ascii v : starts_value (dumps ensure_ascii v).
Proof.
  destruct v as [|[|]|z|x|s|items|members]; cbn [dumps];
    try (unfold starts_value; eexists; eexists; split; [reflexivity|repeat split]).
  - destruct (str_of_Z_head z) as (c & s & E & H).
    destruct (number_start c H) as (_ & _ & _ & _ & _ & _ & H1 & H2 & H3).
    exists c, s. auto.
  - apply float_text_starts_value.
Qed.

Lemma starts_value_app s r : starts_value s -> starts_value (s ++ r).
Proof. intros (c & r' & -> & H). exists c, (r' ++ r). auto. Qed.

Lemma skip_ws_starts s : starts_value s -> skip_ws s = s.
Proof. intros (c & r & -> & H & _). now apply skip_ws_head. Qed.

Section Scanning.

Variable ensure_ascii : bool.

Local Abbreviation dumps' := (dumps ensure_ascii).
Local Abbreviation scans := (Json.scans ensure_ascii).
Local Abbreviation member_text := (Json.member_text ensure_ascii).

Lemma scans_elements items :
  items <> [] -> Forall scans items ->
  forall fuel rest,
    2 * String.length (Py.join ", " (map dumps' items)) + 1 <= fuel ->
    scan_elements fuel (Py.join ", " (map dumps' items) ++ String "]" rest) = Some rest.
Proof.
  intros Hne Hall. induction Hall as [|v items Hv Hall IH]; [contradiction|].
  intros fuel rest Hfuel.
  destruct fuel as [|fuel]; [lia|]. rewrite scan_elements_S.
  destruct items as [|v2 items].
  - cbn [map Py.join] in *. rewrite Hv; [|lia|reflexivity]. reflexivity.
  - change (Py.join ", " (map dumps' (v :: v2 :: items)))
      with (dumps' v ++ ", " ++ Py.join ", " (map dumps' (v2 :: items))) in *.
    rewrite !length_append in Hfuel. rewrite !append_assoc.
    rewrite Hv; [|lia|reflexivity].
    cbn [append skip_ws is_ws Ascii.eqb Bool.eqb orb].
    change (skip_ws (String " " ?s)) with (skip_ws s).
    rewrite skip_ws_starts.
    + apply IH; [discriminate|]. cbn [String.length] in Hfuel. lia.
    + apply starts_value_app. cbn [map Py.join].
      destruct items; [|apply starts_value_app]; apply dumps_head.
Qed.

Lemma member_text_head kv r : starts_value (member_text kv ++ r).
Proof.
  destruct kv as [k x]. unfold member_text. rewrite quote_append.
  eexists; eexists. split; [reflexivity|repeat split].
Qed.

Lemma members_head members r :
  members <> [] -> starts_value (Py.join ", " (map member_text members) ++ r).
Proof.
  destruct members as [|kv [|kv2 members]]; [contradiction| |]; intros _; cbn [map Py.join].
  - apply member_text_head.
  - rewrite append_assoc. apply member_text_head.
Qed.

Lemma scans_member k x fuel rest :
  scans x -> 2 * String.length (member_text (k, x)) <= fuel ->
  ends_value rest = true ->
  exists q r,
    member_text (k, x) ++ rest = String q r /\ Ascii.eqb q dquote = true
    /\ match scan_string r with
       | Some r1 =>
           match skip_ws r1 with
           | String colon r2 =>
               if Ascii.eqb colon ":"%char then scan_value fuel (skip_ws r2) else None
           | EmptyString => None
           end
       | None => None
       end = Some rest.
Proof.
  intros Hx Hfuel Hrest. unfold member_text in *.
  rewrite !append_assoc, quote_append. eexists; eexists. split; [reflexivity|].
  split; [reflexivity|]. rewrite scan_string_escape.
  cbn [append skip_ws is_ws Ascii.eqb Bool.eqb orb].
  rewrite skip_ws_starts by (apply starts_value_app, dumps_head).
  apply Hx; [|assumption]. rewrite !length_append in Hfuel. lia.
Qed.

Lemma scans_members members :
  members <> [] -> Forall (fun kv => scans (snd kv)) members ->
  forall fuel rest,
    2 * String.length (Py.join ", " (map member_text members)) + 1 <= fuel ->
    scan_members fuel (Py.join ", " (map member_text members) ++ String "}" rest)
    = Some rest.
Proof.
  intros Hne Hall. induction Hall as [|[k x] members Hx Hall IH]; [contradiction|].
  intros fuel rest Hfuel. cbn [snd] in Hx.
  destruct fuel as [|fuel]; [lia|].
  destruct members as [|kv2 members].
  - cbn [map Py.join] in *.
    destruct (scans_member k x fuel (String "}" rest) Hx) as (q & r & -> & Hq & Hs);
      [lia|reflexivity|].
    rewrite scan_members_S, Hq.
    destruct (scan_string r) as [r1|]; [|discriminate].
    destruct (skip_ws r1) as [|colon r2]; [discriminate|].
    destruct (Ascii.eqb colon ":"); [|discriminate].
    rewrite Hs. reflexivity.
  - change (Py.join ", " (map member_text ((k, x) :: kv2 :: members)))
      with (member_text (k, x) ++ ", " ++ Py.join ", " (map member_text (kv2 :: members))) in *.
    rewrite !length_append in Hfuel. rewrite !append_assoc.
    destruct (scans_member k x fuel
                (", " ++ Py.join ", " (map member_text (kv2 :: members)) ++ String "}" rest) Hx)
      as (q & r & -> & Hq & Hs); [lia|reflexivity|].
    rewrite scan_members_S, Hq.
    destruct (scan_string r) as [r1|]; [|discriminate].
    destruct (skip_ws r1) as [|colon r2]; [discriminate|].
    destruct (Ascii.eqb colon ":"); [|discriminate].
    rewrite Hs.
    cbn [append skip_ws is_ws Ascii.eqb Bool.eqb orb].
    rewrite skip_ws_starts by (apply members_head; discriminate).
    apply IH; [discriminate|]. cbn [String.length] in Hfuel. lia.
Qed.

Lemma map_member_text members :
  map (fun kv : string * json =>
         let (k, x) := kv in quote ensure_ascii k ++ ": " ++ dumps' x) members
  = map member_text members.
Proof. reflexivity. Qed.

Lemma finite_items_scan items :
  Forall (fun v => finite_numbers v = true -> scans v) items ->
  forallb finite_numbers items = true -> Forall scans items.
Proof.
  induction 1 as [|v items Hv _ IH]; [constructor|]. cbn [forallb].
  intros H. apply andb_true_iff in H as [Hfv Hfi]. constructor; auto.
Qed.

Lemma finite_members_scan members :
  Forall (fun kv : string * json => finite_numbers (snd kv) = true -> scans (snd kv)) members ->
  forallb (fun kv : string * json => let (_, x) := kv in finite_numbers x) members = true ->
  Forall (fun kv => scans (snd kv)) members.
Proof.
  induction 1 as [|[k x] members Hx _ IH]; [constructor|]. cbn [forallb].
  intros H. apply andb_true_iff in H as [Hfx Hfm]. constructor; auto.
Qed.

Lemma dumps_scans v : finite_numbers v = true -> scans v.
Proof.
  induction v as [|b|z|x|s|items IH|members IH] using json_induction;
    intros Hfin fuel rest Hfuel Hrest.
  - destruct fuel as [|fuel]; [cbn in Hfuel; lia|]. reflexivity.
  - destruct fuel as [|fuel]; [destruct b; cbn in Hfuel; lia|]. destruct b; reflexivity.
  - cbn [dumps] in *.
    destruct (str_of_Z_head z) as (c & s & E & H).
    destruct fuel as [|fuel]; [rewrite E in Hfuel; cbn in Hfuel; lia|].
    pose proof (scan_number_str_of_Z z rest Hrest) as N.
    rewrite E in *. cbn [append] in *. rewrite scan_value_S.
    destruct (number_start c H) as (-> & -> & -> & -> & -> & -> & _). exact N.
  - cbn [dumps finite_numbers] in *.
    destruct (float_text_head x) as (c & s & E & H). rewrite Hfin in H.
    destruct fuel as [|fuel]; [rewrite E in Hfuel; cbn in Hfuel; lia|].
    pose proof (scan_number_float_text x rest Hfin Hrest) as N.
    rewrite E in *. cbn [append] in *. rewrite scan_value_S.
    destruct (number_start c H) as (-> & -> & -> & -> & -> & -> & _). exact N.
  - cbn [dumps] in *.
    destruct fuel as [|fuel]; [cbn in Hfuel; lia|].
    rewrite quote_append, scan_value_S. cbn [Ascii.eqb Bool.eqb dquote].
    apply scan_string_escape.
  - cbn [dumps] in *.
    destruct fuel as [|fuel]; [cbn in Hfuel; lia|].
    cbn [append]. rewrite scan_value_S. cbn [Ascii.eqb Bool.eqb].
    rewrite append_assoc.
    destruct items as [|v items]; [reflexivity|].
    assert (Hs : starts_value (Py.join ", " (map dumps' (v :: items)) ++ "]" ++ rest)).
    { apply starts_value_app. cbn [map Py.join].
      destruct items; [|apply starts_value_app]; apply dumps_head. }
    rewrite (skip_ws_starts _ Hs).
    destruct Hs as (c & r & E & _ & Hc & _). rewrite E, Hc, <- E.
    apply scans_elements; [discriminate|now apply finite_items_scan|].
    cbn [String.length append] in Hfuel. rewrite length_append in Hfuel.
    cbn [String.length] in Hfuel. lia.
  - cbn [dumps] in *. rewrite map_member_text in *.
    destruct fuel as [|fuel]; [cbn in Hfuel; lia|].
    cbn [append]. rewrite scan_value_S. cbn [Ascii.eqb Bool.eqb].
    rewrite append_assoc.
    destruct members as [|kv members]; [reflexivity|].
    assert (Hs : starts_value (Py.join ", " (map member_text (kv :: members)) ++ "}" ++ rest)).
    { apply members_head. discriminate. }
    rewrite (skip_ws_starts _ Hs).
    destruct Hs as (c & r & E & _ & _ & Hc). rewrite E, Hc, <- E.
    apply scans_members; [discriminate|now apply finite_members_scan|].
    cbn [String.length append] in Hfuel. rewrite length_append in Hfuel.
    cbn [String.length] in Hfuel. lia.
Qed.

End Scanning.

(** What [json.dumps] writes of a value without infinity and NaN is a
    JSON text. *)
Lemma dumps_is_json ensure_ascii v :
  finite_numbers v = true -> is_json (dumps ensure_ascii v) = true.
Proof.
  intros Hfin. unfold is_json. rewrite skip_ws_starts by apply dumps_head.
  rewrite <- (append_nil_r (dumps ensure_ascii v)) at 2.
  rewrite dumps_scans; [reflexivity|exact Hfin|lia|reflexivity].
Qed.

Example dumps_nan_is_no_json :
  dumps false (JArr [JFloat Py.FNaN; JFloat (Py.FInf true)]) = "[NaN, -Infinity]"
  /\ is_json (dumps false (JFloat Py.FNaN)) = false
  /\ is_json (dumps false (JFloat (Py.FInf false))) = false
  /\ is_json (dumps false (JArr [JFloat (Py.FFinite false 15 1); JFloat (Py.FInf true)])) = false.
Proof. repeat split; reflexivity. Qed.

(** ** The parameter mapping of the Search Adapter *)

Lemma no_filter_falsy d k : no_filter (lookup k d) -> truthy (get d k (JArr [])) = false.
Proof. unfold get. intros [-> | ->]; reflexivity. Qed.

Lemma filter_truthy d k x xs :
  lookup k d = Some (JArr (x :: xs)) -> get d k (JArr []) = JArr (x :: xs).
Proof. unfold get. now intros ->. Qed.

(** C5. The mapping of a WebSearch input to the parameters of the search
    service: for the query of the scenario alone, the parameters are the
    fixed ones and carry neither [includeDomains] nor [excludeDomains];
    for every input, [type] is auto, [numResults] is 10, [startCrawlDate]
    is 2024-01-01 and the query is echoed; a domain list that is absent or
    empty leaves its key out; a non-empty [allowed_domains]
    ([blocked_domains]) list is passed on as [includeDomains]
    ([excludeDomains]). *)
Theorem map_websearch_to_exa_parameters :
  _map_websearch_to_exa [("query", JStr "quantum computing breakthroughs 2025")]
  = [ ("query", JStr "quantum computing breakthroughs 2025");
      ("type", JStr "auto");
      ("numResults", JInt 10);
      ("contents",
        JObj [ ("text", JObj [("maxCharacters", JInt 2000)]);
               ("highlights", JObj [("numSentences", JInt 2)]);
               ("summary", JObj [("query", JStr "quantum computing breakthroughs 2025")]) ]);
      ("startCrawlDate", JStr "2024-01-01") ]
  /\ forall websearch_input : dict,
      let exa_params := _map_websearch_to_exa websearch_input in
      lookup "type" exa_params = Some (JStr "auto")
      /\ lookup "numResults" exa_params = Some (JInt 10)
      /\ lookup "startCrawlDate" exa_params = Some (JStr "2024-01-01")
      /\ lookup "query" exa_params = Some (get websearch_input "query" (JStr ""))
      /\ (no_filter (lookup "allowed_domains" websearch_input) ->
          has_key exa_params "includeDomains" = false)
      /\ (no_filter (lookup "blocked_domains" websearch_input) ->
          has_key exa_params "excludeDomains" = false)
      /\ (forall x xs,
            lookup "allowed_domains" websearch_input = Some (JArr (x :: xs)) ->
            lookup "includeDomains" exa_params = Some (JArr (x :: xs)))
      /\ (forall x xs,
            lookup "blocked_domains" websearch_input = Some (JArr (x :: xs)) ->
            lookup "excludeDomains" exa_params = Some (JArr (x :: xs))).
Proof.
  split; [reflexivity|].
  intros d exa_params. subst exa_params. unfold _map_websearch_to_exa.
  repeat split.
  - destruct (truthy (get d "allowed_domains" _)), (truthy (get d "blocked_domains" _));
      reflexivity.
  - destruct (truthy (get d "allowed_domains" _)), (truthy (get d "blocked_domains" _));
      reflexivity.
  - apply lookup_setitem_eq.
  - destruct (truthy (get d "allowed_domains" _)), (truthy (get d "blocked_domains" _));
      reflexivity.
  - intros H. rewrite (no_filter_falsy _ _ H).
    destruct (truthy (get d "blocked_domains" _)); reflexivity.
  - intros H. rewrite (no_filter_falsy _ _ H).
    destruct (truthy (get d "allowed_domains" _)); reflexivity.
  - intros x xs H. rewrite (filter_truthy _ _ _ _ H). cbn [truthy].
    destruct (truthy (get d "blocked_domains" _)); reflexivity.
  - intros x xs H. rewrite (filter_truthy _ _ _ _ H). cbn [truthy].
    destruct (truthy (get d "allowed_domains" _)); reflexivity.
Qed.

(** The mapping at an input with an empty allow list and a block list of
    one domain. *)
Lemma map_websearch_to_exa_parameters_witness :
  let input := [ ("query", JStr "rust async");
                 ("allowed_domains", JArr []);
                 ("blocked_domains", JArr [JStr "example.com"]) ] in
  has_key (_map_websearch_to_exa input) "includeDomains" = false
  /\ lookup "excludeDomains" (_map_websearch_to_exa input)
     = Some (JArr [JStr "example.com"]).
Proof.
  intros input.
  destruct map_websearch_to_exa_parameters as [_ H].
  destruct (H input) as (_ & _ & _ & _ & Hin & _ & _ & Hex).
  split.
  - apply Hin. right. reflexivity.
  - apply Hex. reflexivity.
Defined.

(** ** count_tokens *)

Lemma fold_block_chars blocks acc :
  fold_left block_chars blocks acc = (acc + zsum (map block_text_length blocks))%Z.
Proof.
  revert acc. induction blocks as [|b blocks IH]; intros acc; cbn.
  - lia.
  - rewrite IH. unfold zsum.
    destruct b as [text| | |[[text|]|]];
      cbn [block_chars block_text_length fold_right]; lia.
Qed.

Lemma fold_system_block_chars blocks acc :
  fold_left system_block_chars blocks acc
  = (acc + zsum (map (fun b => match sys_text b with
                               | Some text => Py.len text
                               | None => 0
                               end) blocks))%Z.
Proof.
  revert acc. induction blocks as [|b blocks IH]; intros acc; cbn.
  - lia.
  - rewrite IH. unfold system_block_chars, zsum. destruct (sys_text b); lia.
Qed.

Lemma fold_message_chars msgs acc :
  fold_left message_chars msgs acc = (acc + zsum (map message_text_length msgs))%Z.
Proof.
  revert acc. induction msgs as [|m msgs IH]; intros acc; cbn.
  - lia.
  - rewrite IH. unfold message_chars, message_text_length.
    destruct (content m); rewrite ?fold_block_chars; unfold zsum; lia.
Qed.

Lemma system_chars_sum system acc :
  system_chars acc system = (acc + system_text_length system)%Z.
Proof.
  unfold system_chars, system_text_length.
  destruct system as [[s|blocks]|]; cbn [truthy_system].
  - destruct s; cbn [Py.truthy_str]; [unfold Py.len; cbn; lia|reflexivity].
  - destruct blocks as [|b blocks]; [unfold zsum; cbn; lia|].
    now rewrite fold_system_block_chars.
  - lia.
Qed.

Lemma zsum_nonneg {A} (f : A -> Z) l :
  (forall x, 0 <= f x)%Z -> (0 <= zsum (map f l))%Z.
Proof.
  intros H. unfold zsum. induction l as [|a l IH]; cbn [map fold_right]; [lia|].
  specialize (H a). lia.
Qed.

Lemma character_count_nonneg request : (0 <= character_count request)%Z.
Proof.
  unfold character_count.
  assert (0 <= system_text_length (ClaudeTokenCountRequest.system request))%Z.
  { unfold system_text_length.
    destruct (ClaudeTokenCountRequest.system request) as [[s|blocks]|];
      [apply len_nonneg| |lia].
    apply zsum_nonneg. intros b. destruct (sys_text b); [apply len_nonneg|lia]. }
  assert (0 <= zsum (map message_text_length (ClaudeTokenCountRequest.messages request)))%Z.
  { apply zsum_nonneg. intros m. unfold message_text_length.
    destruct (content m); [lia|apply len_nonneg|].
    apply zsum_nonneg. intros b.
    destruct b as [text| | |[[text|]|]]; cbn; try lia; apply len_nonneg. }
  lia.
Qed.

Lemma count_tokens_character_count request :
  count_tokens request
  = [("input_tokens", JInt (Z.max 1 (character_count request / 4)))].
Proof.
  unfold count_tokens, character_count.
  rewrite fold_message_chars, system_chars_sum. reflexivity.
Qed.

(** C9. For every token-count request the answer is
    [max(1, floor(C / 4))], where [C] adds the length of a string system
    prompt, of the text of the system blocks that have one, of the string
    contents of the messages and of the non-None text of their blocks;
    blocks without a text and None contents add nothing.  The answer is at
    least 1, also for the empty request. *)
Theorem count_tokens_estimate :
  forall request : ClaudeTokenCountRequest.t,
    count_tokens request
    = [("input_tokens", JInt (Z.max 1 (character_count request / 4)))]
    /\ (exists n, lookup "input_tokens" (count_tokens request) = Some (JInt n) /\ (1 <= n)%Z)
    /\ count_tokens {| ClaudeTokenCountRequest.model := "";
                       ClaudeTokenCountRequest.messages := [];
                       ClaudeTokenCountRequest.system := None |}
       = [("input_tokens", JInt 1)]
    /\ (forall id name input, block_text_length (ToolUseBlock id name input) = 0%Z)
    /\ (forall id c, block_text_length (ToolResultBlock id c) = 0%Z)
    /\ block_text_length (OtherBlock (Some None)) = 0%Z
    /\ block_text_length (OtherBlock None) = 0%Z
    /\ (forall r, message_text_length {| role := r; content := NoContent |} = 0%Z).
Proof.
  intros request.
  pose proof (count_tokens_character_count request) as E.
  split; [exact E|]. split.
  - rewrite E. eexists. split; [reflexivity|lia].
  - repeat split; reflexivity.
Qed.

(** C8. A system prompt that is a string of length 40 and one user message
    whose content is a string of length 80: the estimate is 30. *)
Theorem count_tokens_scenario :
  forall (model system_prompt message : string),
    String.length system_prompt = 40 ->
    String.length message = 80 ->
    count_tokens
      {| ClaudeTokenCountRequest.model := model;
         ClaudeTokenCountRequest.messages := [ {| role := user; content := Text message |} ];
         ClaudeTokenCountRequest.system := Some (SystemText system_prompt) |}
    = [("input_tokens", JInt 30)].
Proof.
  intros model sp msg Hs Hm.
  rewrite count_tokens_character_count. unfold character_count. cbn. unfold Py.len. rewrite Hs, Hm. reflexivity.
Qed.

Lemma count_tokens_scenario_witness :
  count_tokens
    {| ClaudeTokenCountRequest.model := "claude-3-haiku";
       ClaudeTokenCountRequest.messages :=
         [ {| role := user;
              content := Text "Summarise the attached report in three bullet points and list all the open risks" |} ];
       ClaudeTokenCountRequest.system := Some (SystemText "You are a careful and concise assistant.") |}
  = [("input_tokens", JInt 30)].
Proof.
  apply count_tokens_scenario; reflexivity.
Defined.

(** ** validate_api_key *)

Section AuthFacts.

Variable anthropic_api_key : option string.
Variable validate_client_api_key : string -> bool.

Local Abbreviation validate := (validate_api_key anthropic_api_key validate_client_api_key).

Lemma validate_skipped x_api_key authorization :
  Py.truthy_opt anthropic_api_key = false ->
  validate x_api_key authorization = Returns tt.
Proof. unfold validate_api_key. now intros ->. Qed.

Lemma validate_rejects x_api_key authorization :
  Py.truthy_opt anthropic_api_key = true ->
  (Py.truthy_opt (client_api_key x_api_key authorization) = false
   \/ exists k, client_api_key x_api_key authorization = Some k
                /\ validate_client_api_key k = false) ->
  exists e, validate x_api_key authorization = Raises e /\ status e = 401%Z.
Proof.
  unfold validate_api_key. intros -> H. cbn [negb].
  destruct H as [H | (k & Hk & Hv)].
  - rewrite H. cbn. eexists. split; reflexivity.
  - rewrite Hk, Hv. cbn [negb]. rewrite orb_true_r. eexists. split; reflexivity.
Qed.

Lemma validate_passes x_api_key authorization k :
  client_api_key x_api_key authorization = Some k ->
  Py.truthy_str k = true ->
  validate_client_api_key k = true ->
  validate x_api_key authorization = Returns tt.
Proof.
  unfold validate_api_key. intros -> Hk Hv. cbn [Py.truthy_opt].
  rewrite Hk, Hv. cbn. now destruct (Py.truthy_opt anthropic_api_key).
Qed.

End AuthFacts.

Lemma client_api_key_x_api_key k authorization :
  Py.truthy_str k = true -> client_api_key (Some k) authorization = Some k.
Proof. unfold client_api_key. cbn. now intros ->. Qed.

Lemma client_api_key_bearer x_api_key k :
  Py.truthy_opt x_api_key = false ->
  Py.contains "Bearer " k = false ->
  client_api_key x_api_key (Some ("Bearer " ++ k)) = Some k.
Proof.
  unfold client_api_key. intros -> Hk.
  replace (Py.startswith ("Bearer " ++ k) "Bearer ") with true.
  - change (Py.truthy_str ("Bearer " ++ k)) with true.
    cbn [andb]. now rewrite bearer_stripped.
  - unfold Py.startswith. cbn. now destruct k.
Qed.

Lemma client_api_key_missing x_api_key authorization :
  Py.truthy_opt x_api_key = false ->
  match authorization with
  | Some a => Py.startswith a "Bearer " = false
  | None => True
  end ->
  client_api_key x_api_key authorization = None.
Proof.
  unfold client_api_key. intros -> H. destruct authorization as [a|]; [|reflexivity].
  rewrite H. now rewrite andb_false_r.
Qed.

(** C7. Without a configured secret the validation is skipped and every
    request passes, whatever its headers.  With a secret, the credential
    is the [x-api-key] header when it is a non-empty string, and otherwise
    what follows the Bearer prefix of [Authorization]; a request without
    credential, or whose credential the configuration does not accept, is
    refused with status 401; a request whose credential it accepts
    passes. *)
Theorem validate_api_key_policy :
  forall (anthropic_api_key : option string) (validate_client_api_key : string -> bool)
         (x_api_key authorization : option string),
    let verdict :=
      validate_api_key anthropic_api_key validate_client_api_key x_api_key authorization in
    let credential := client_api_key x_api_key authorization in
    (Py.truthy_opt anthropic_api_key = false -> verdict = Returns tt)
    /\ (Py.truthy_opt anthropic_api_key = true ->
        (Py.truthy_opt credential = false ->
         exists e, verdict = Raises e /\ status e = 401%Z)
        /\ (forall k, credential = Some k -> validate_client_api_key k = false ->
            exists e, verdict = Raises e /\ status e = 401%Z)
        /\ (forall k, credential = Some k -> Py.truthy_str k = true ->
            validate_client_api_key k = true -> verdict = Returns tt))
    /\ (forall k, x_api_key = Some k -> Py.truthy_str k = true -> credential = Some k)
    /\ (forall k, Py.truthy_opt x_api_key = false ->
        authorization = Some ("Bearer " ++ k) -> Py.contains "Bearer " k = false ->
        credential = Some k)
    /\ (Py.truthy_opt x_api_key = false ->
        match authorization with
        | Some a => Py.startswith a "Bearer " = false
        | None => True
        end ->
        credential = None).
Proof.
  intros key check x auth verdict credential. subst verdict credential.
  split; [apply validate_skipped|]. split; [intros Hkey; repeat split|].
  - intros H. apply validate_rejects; auto.
  - intros k Hk Hv. apply validate_rejects; eauto.
  - intros k Hk Ht Hv. eapply validate_passes; eauto.
  - split; [|split].
    + intros k -> Hk. now apply client_api_key_x_api_key.
    + intros k Hx -> Hk. now apply client_api_key_bearer.
    + apply client_api_key_missing.
Qed.

(** The policy with the secret [test-client-key] of [test_websearch.py],
    checked by equality: the key passes in either header, another key and
    no key are refused. *)
Lemma validate_api_key_policy_witness :
  let secret := Some "test-client-key" in
  let check := String.eqb "test-client-key" in
  validate_api_key secret check (Some "test-client-key") None = Returns tt
  /\ validate_api_key secret check None (Some "Bearer test-client-key") = Returns tt
  /\ (exists e, validate_api_key secret check (Some "wrong") None = Raises e
                /\ status e = 401%Z)
  /\ (exists e, validate_api_key secret check None None = Raises e /\ status e = 401%Z)
  /\ validate_api_key None check None None = Returns tt.
Proof.
  intros secret check.
  pose proof (validate_api_key_policy secret check) as P.
  split; [|split; [|split; [|split]]].
  - destruct (P (Some "test-client-key") None) as (_ & H & _).
    destruct (H eq_refl) as (_ & _ & Hpass). now apply (Hpass "test-client-key").
  - destruct (P None (Some "Bearer test-client-key")) as (_ & H & _).
    destruct (H eq_refl) as (_ & _ & Hpass). now apply (Hpass "test-client-key").
  - destruct (P (Some "wrong") None) as (_ & H & _).
    destruct (H eq_refl) as (_ & Hrej & _). now apply (Hrej "wrong").
  - destruct (P None None) as (_ & H & _).
    destruct (H eq_refl) as (Hrej & _). now apply Hrej.
  - destruct (validate_api_key_policy None check None None) as (H & _). now apply H.
Defined.

(** ** The Search Adapter *)

Section AdapterFacts.

Variable api_key : string.
Variable network : trace -> http_request -> outcome http_response.

Local Abbreviation search' := (search api_key network).
Local Abbreviation request_of input :=
  (search_request api_key (_map_websearch_to_exa input)).

Lemma search_without_key input t :
  Py.truthy_str api_key = false ->
  search' input t = (Ok (_create_error_response "EXA_API_KEY not configured"), t).
Proof. unfold search. now intros ->. Qed.

Lemma search_transport_error input t e :
  Py.truthy_str api_key = true ->
  network t (request_of input) = Raised e ->
  search' input t
  = (Ok (_create_error_response (message e)), (t ++ [HttpPost (request_of input)])%list).
Proof.
  unfold search, try_except, bind, post. intros -> H. cbn [negb]. now rewrite H.
Qed.

Lemma search_bad_status input t response :
  Py.truthy_str api_key = true ->
  network t (request_of input) = Ok response ->
  status_code response <> 200%Z ->
  search' input t
  = (Ok (_create_error_response
           ("Exa API error: " ++ Py.str_of_Z (status_code response))),
     (t ++ [HttpPost (request_of input)])%list).
Proof.
  unfold search, try_except, bind, post. intros -> H Hs. cbn [negb]. rewrite H.
  apply Z.eqb_neq in Hs. now rewrite Hs.
Qed.

Lemma search_bad_body input t response e :
  Py.truthy_str api_key = true ->
  network t (request_of input) = Ok response ->
  status_code response = 200%Z ->
  json_body response = Raised e ->
  search' input t
  = (Ok (_create_error_response (message e)), (t ++ [HttpPost (request_of input)])%list).
Proof.
  unfold search, try_except, bind, post, lift. intros -> H Hs Hb. cbn [negb]. rewrite H.
  apply Z.eqb_eq in Hs. now rewrite Hs, Hb.
Qed.

Lemma search_success input t response v :
  Py.truthy_str api_key = true ->
  network t (request_of input) = Ok response ->
  status_code response = 200%Z ->
  json_body response = Ok v ->
  search' input t = (Ok v, (t ++ [HttpPost (request_of input)])%list).
Proof.
  unfold search, try_except, bind, post, lift. intros -> H Hs Hb. cbn [negb]. rewrite H.
  apply Z.eqb_eq in Hs. now rewrite Hs, Hb.
Qed.

(** The adapter returns, and sends at most one request. *)
Lemma search_returns input t :
  exists v, search' input t = (Ok v, t)
            \/ search' input t = (Ok v, (t ++ [HttpPost (request_of input)])%list).
Proof.
  destruct (Py.truthy_str api_key) eqn:K.
  - destruct (network t (request_of input)) as [response|e] eqn:N.
    + destruct (Z.eq_dec (status_code response) 200) as [S|S].
      * destruct (json_body response) as [v|e] eqn:B.
        -- exists v. right. eapply search_success; eauto.
        -- eexists. right. eapply search_bad_body; eauto.
      * eexists. right. eapply search_bad_status; eauto.
    + eexists. right. eapply search_transport_error; eauto.
  - eexists. left. now apply search_without_key.
Qed.

Lemma process_websearch_returns input t :
  exists v t', process_websearch_via_exa api_key network input t = (Ok v, t')
               /\ (t' = (t ++ [SearchCall input])%list
                   \/ t' = (t ++ [SearchCall input; HttpPost (request_of input)])%list).
Proof.
  unfold process_websearch_via_exa, bind, emit.
  destruct (search_returns input (t ++ [SearchCall input])%list) as [v [H|H]];
    rewrite H; exists v; eexists; split; eauto.
  right. now rewrite <- app_assoc.
Qed.

End AdapterFacts.

Lemma error_response_fields error_message :
  exists members,
    _create_error_response error_message = JObj members
    /\ lookup "requestId" members = Some (JStr "error")
    /\ lookup "results" members = Some (JArr [])
    /\ lookup "context" members = Some (JStr ("Error: " ++ error_message))
    /\ lookup "costDollars" members
       = Some (JObj [ ("total", JInt 0); ("breakDown", JArr []);
                      ("perRequestPrices", JObj []); ("perPagePrices", JObj []) ]).
Proof. eexists. repeat split. Qed.

(** C4. [search] never raises: on every input, with every key and every
    behaviour of the network, it returns a value.  Without a key it
    returns the error envelope of a missing EXA_API_KEY and the trace is
    left as it was: no request is sent.  With a key it sends one request;
    a transport error, a status other than 200 and a body that is no JSON
    each end in the error envelope with the message of the failure.  The
    envelope has the request id error, no results, the context
    Error: message, and zero cost. *)
Theorem search_never_raises :
  forall (api_key : string) (network : trace -> http_request -> outcome http_response)
         (websearch_input : dict) (t : trace),
    let req := search_request api_key (_map_websearch_to_exa websearch_input) in
    let result := search api_key network websearch_input t in
    (exists v t', result = (Ok v, t'))
    /\ (Py.truthy_str api_key = false ->
        result = (Ok (_create_error_response "EXA_API_KEY not configured"), t))
    /\ (Py.truthy_str api_key = true ->
        (forall e, network t req = Raised e ->
           result = (Ok (_create_error_response (message e)), (t ++ [HttpPost req])%list))
        /\ (forall response, network t req = Ok response ->
              status_code response <> 200%Z ->
              result = (Ok (_create_error_response
                              ("Exa API error: " ++ Py.str_of_Z (status_code response))),
                        (t ++ [HttpPost req])%list))
        /\ (forall response e, network t req = Ok response ->
              status_code response = 200%Z -> json_body response = Raised e ->
              result = (Ok (_create_error_response (message e)), (t ++ [HttpPost req])%list)))
    /\ (forall error_message, exists members,
          _create_error_response error_message = JObj members
          /\ lookup "requestId" members = Some (JStr "error")
          /\ lookup "results" members = Some (JArr [])
          /\ lookup "context" members = Some (JStr ("Error: " ++ error_message))
          /\ lookup "costDollars" members
             = Some (JObj [ ("total", JInt 0); ("breakDown", JArr []);
                            ("perRequestPrices", JObj []); ("perPagePrices", JObj []) ])).
Proof.
  intros api_key network input t req result. subst req result.
  split; [|split; [|split]].
  - destruct (search_returns api_key network input t) as [v [H|H]]; eauto.
  - apply search_without_key.
  - intros K. split; [|split].
    + intros e. now apply search_transport_error.
    + intros response. now apply search_bad_status.
    + intros response e. now apply search_bad_body.
  - apply error_response_fields.
Qed.

(** The adapter without a key, against a service that is down, and
    against a service that answers 429. *)
Lemma search_never_raises_witness :
  let input := [("query", JStr "quantum computing breakthroughs 2025")] in
  search "" Scenarios.unreachable input []
  = (Ok (_create_error_response "EXA_API_KEY not configured"), [])
  /\ search "exa-key" Scenarios.unreachable input []
     = (Ok (_create_error_response "All connection attempts failed"),
        [HttpPost (search_request "exa-key" (_map_websearch_to_exa input))])
  /\ search "exa-key" Scenarios.refusing input []
     = (Ok (_create_error_response "Exa API error: 429"),
        [HttpPost (search_request "exa-key" (_map_websearch_to_exa input))]).
Proof.
  intros input. split; [|split].
  - destruct (search_never_raises "" Scenarios.unreachable input []) as (_ & H & _).
    now apply H.
  - destruct (search_never_raises "exa-key" Scenarios.unreachable input [])
      as (_ & _ & H & _).
    destruct (H eq_refl) as (He & _).
    now apply (He (Exception "All connection attempts failed")).
  - destruct (search_never_raises "exa-key" Scenarios.refusing input [])
      as (_ & _ & H & _).
    destruct (H eq_refl) as (_ & Hs & _).
    refine (Hs _ eq_refl _). cbn. discriminate.
Defined.

Open Scope list_scope.

(** ** The interceptor *)

(** *** Traces *)

Lemma search_calls_app t1 t2 : search_calls (t1 ++ t2) = search_calls t1 + search_calls t2.
Proof. unfold search_calls. now rewrite filter_app, length_app. Qed.

Lemma http_posts_app t1 t2 : http_posts (t1 ++ t2) = http_posts t1 + http_posts t2.
Proof. unfold http_posts. now rewrite filter_app, length_app. Qed.

Lemma quiet_app t1 t2 : quiet t1 -> quiet t2 -> quiet (t1 ++ t2).
Proof. unfold quiet. rewrite existsb_app. now intros -> ->. Qed.

(** *** Lists *)

Lemma Forall2_compose {A} (R S T : A -> A -> Prop) l1 l2 l3 :
  (forall x y z, R x y -> S y z -> T x z) ->
  Forall2 R l1 l2 -> Forall2 S l2 l3 -> Forall2 T l1 l3.
Proof.
  intros H H12. revert l3. induction H12 as [|x y l1 l2 Hxy _ IH]; intros l3 H23.
  - inversion H23. constructor.
  - inversion H23 as [|y' z l2' l3' Hyz Hrest]; subst. constructor; eauto.
Qed.

Lemma Forall2_same {A} (R : A -> A -> Prop) l :
  (forall x, In x l -> R x x) -> Forall2 R l l.
Proof.
  induction l as [|x l IH]; intros H; constructor.
  - apply H. now left.
  - apply IH. intros y Hy. apply H. now right.
Qed.

Lemma Forall2_eq {A} (l l' : list A) : Forall2 eq l l' -> l = l'.
Proof. induction 1; congruence. Qed.

(** The last two elements of a list of at least two. *)
Lemma last_two {A} (l : list A) :
  2 <= length l -> exists pre a b, l = pre ++ [a; b].
Proof.
  intros H. destruct (rev l) as [|b [|a r]] eqn:E.
  - apply (f_equal (@length A)) in E. rewrite length_rev in E. cbn in E. lia.
  - apply (f_equal (@length A)) in E. rewrite length_rev in E. cbn in E. lia.
  - exists (rev r), a, b. rewrite <- (rev_involutive l), E. cbn.
    now rewrite <- List.app_assoc.
Qed.

Lemma rev_last_two {A} (pre : list A) a b : rev (pre ++ [a; b]) = b :: a :: rev pre.
Proof. now rewrite rev_app_distr. Qed.

Lemma nth_error_second_last {A} (pre : list A) a b :
  nth_error (pre ++ [a; b]) (length (pre ++ [a; b]) - 2) = Some a.
Proof.
  rewrite length_app. cbn [length]. replace (length pre + 2 - 2) with (length pre) by lia.
  rewrite nth_error_app2 by lia. now rewrite Nat.sub_diag.
Qed.

Lemma nth_error_last {A} (pre : list A) a b :
  nth_error (pre ++ [a; b]) (length (pre ++ [a; b]) - 1) = Some b.
Proof.
  rewrite length_app. cbn [length]. replace (length pre + 2 - 1) with (length pre + 1) by lia.
  rewrite nth_error_app2 by lia. now replace (length pre + 1 - length pre) with 1 by lia.
Qed.

Lemma firstn_all_but_last {A} (pre : list A) a b :
  firstn (length (pre ++ [a; b]) - 1) (pre ++ [a; b]) = pre ++ [a].
Proof.
  rewrite length_app. cbn [length]. replace (length pre + 2 - 1) with (length pre + 1) by lia.
  rewrite firstn_app. replace (length pre + 1 - length pre) with 1 by lia.
  rewrite firstn_all2 by lia. reflexivity.
Qed.

(** *** Blocks that keep their correlation id *)

Lemma results_for_same_ids id bs bs' :
  Forall2 (fun b b' => string_result_id b' = string_result_id b) bs bs' ->
  results_for id bs' = results_for id bs.
Proof.
  unfold results_for. induction 1 as [|b b' bs bs' Hb _ IH]; [reflexivity|].
  cbn [filter].
  assert (E : forall x : ContentBlock,
             match x with
             | ToolResultBlock tool_use_id (ResultStr _) => String.eqb tool_use_id id
             | _ => false
             end
             = match string_result_id x with
               | Some tool_use_id => String.eqb tool_use_id id
               | None => false
               end).
  { intros [ | |? [?|?]| ]; reflexivity. }
  rewrite (E b), (E b'), Hb. destruct (string_result_id b) as [i|]; [|exact IH].
  destruct (String.eqb i id); cbn [length]; [now rewrite IH|exact IH].
Qed.

Lemma correlated_pairs_same_ids ab bs bs' :
  Forall2 (fun b b' => string_result_id b' = string_result_id b) bs bs' ->
  correlated_pairs ab bs' = correlated_pairs ab bs.
Proof.
  intros H. induction ab as [|a ab IH]; [reflexivity|].
  destruct a as [ |id name input| | ]; cbn [correlated_pairs]; try exact IH.
  rewrite IH, (results_for_same_ids id _ _ H). reflexivity.
Qed.

Lemma correlated_pairs_cons a ab bs :
  correlated_pairs (a :: ab) bs = correlated_pairs [a] bs + correlated_pairs ab bs.
Proof. destruct a; cbn [correlated_pairs]; lia. Qed.

Lemma pending_counted id b :
  pending_result id b = true -> results_for id [b] = 1.
Proof.
  destruct b as [ | |tuid [s|v]| ]; try discriminate. cbn.
  intros H. apply andb_true_iff in H as [-> _]. reflexivity.
Qed.

Lemma results_for_cons id b bs :
  results_for id (b :: bs) = results_for id [b] + results_for id bs.
Proof.
  unfold results_for. cbn [filter].
  destruct (match b with
            | ToolResultBlock tool_use_id (ResultStr _) => String.eqb tool_use_id id
            | _ => false
            end); reflexivity.
Qed.

Section InterceptorFacts.

Variable api_key : string.
Variable network : trace -> http_request -> outcome http_response.

Local Abbreviation visit_u := (visit_user_block api_key network).
Local Abbreviation visit_a := (visit_assistant_block api_key network).
Local Abbreviation intercept := (intercept_websearch_in_request api_key network).
Local Abbreviation process := (process_websearch_via_exa api_key network).
Local Abbreviation injected' := (injected api_key network).

Lemma visit_not_pending id input b t :
  pending_result id b = false -> visit_u id input b t = (Ok b, t).
Proof.
  destruct b as [ | |tuid [s|v]| ]; try reflexivity;
    cbn [pending_result visit_user_block]; destruct (String.eqb tuid id);
    try reflexivity.
  cbn [andb]. now intros ->.
Qed.

Lemma visit_pending id input b t :
  pending_result id b = true ->
  exists s v added,
    b = ToolResultBlock id (ResultStr s)
    /\ process input t = (Ok v, t ++ added)
    /\ visit_u id input b t = (Ok (ToolResultBlock id (ResultStr (dumps false v))), t ++ added)
    /\ quiet added /\ search_calls added = 1 /\ http_posts added <= 1.
Proof.
  destruct b as [ | |tuid [s|v]| ]; try discriminate. cbn [pending_result].
  intros H. apply andb_true_iff in H as [Hid Hp]. apply String.eqb_eq in Hid. subst tuid.
  destruct (process_websearch_returns api_key network input t) as (v & t' & Hv & Ht').
  exists s, v.
  assert (Hvisit : visit_u id input (ToolResultBlock id (ResultStr s)) t
                   = (Ok (ToolResultBlock id (ResultStr (dumps false v))), t')).
  { cbn [visit_user_block]. rewrite String.eqb_refl, Hp.
    unfold try_except, bind. rewrite Hv. reflexivity. }
  destruct Ht' as [-> | ->]; eexists; (split; [reflexivity|]);
    (split; [exact Hv|]); (split; [exact Hvisit|]); repeat split; cbn; lia.
Qed.

Lemma for_each_visit all id input :
  In (ToolUseBlock id "WebSearch" input) all ->
  forall bs t, exists bs' added,
    for_each (visit_u id input) bs t = (Ok bs', t ++ added)
    /\ Forall2 (fun b b' => if pending_result id b then injected' all b b' else b' = b) bs bs'
    /\ quiet added
    /\ search_calls added <= results_for id bs
    /\ http_posts added <= search_calls added.
Proof.
  intros Hin. induction bs as [|b bs IH]; intros t.
  - exists [], []. rewrite List.app_nil_r. repeat split; auto.
  - cbn [for_each]. unfold bind at 1.
    destruct (pending_result id b) eqn:Hp.
    + destruct (visit_pending id input b t Hp) as (s & v & added1 & -> & Hv & Hvisit & Hq & Hc & Hh).
      rewrite Hvisit. unfold bind at 1.
      destruct (IH (t ++ added1)) as (bs' & added2 & Hrun & Hrel & Hq2 & Hc2 & Hh2).
      rewrite Hrun. unfold ret.
      exists (ToolResultBlock id (ResultStr (dumps false v)) :: bs'), (added1 ++ added2).
      rewrite List.app_assoc. split; [reflexivity|]. split; [|split; [|split]].
      * constructor; [|exact Hrel]. rewrite Hp.
        exists id, s, input, t, (t ++ added1), v. auto.
      * now apply quiet_app.
      * rewrite search_calls_app, results_for_cons, (pending_counted _ _ Hp). lia.
      * rewrite http_posts_app, search_calls_app. lia.
    + rewrite (visit_not_pending id input b t Hp). unfold bind at 1.
      destruct (IH t) as (bs' & added & Hrun & Hrel & Hq & Hc & Hh).
      rewrite Hrun. unfold ret. exists (b :: bs'), added.
      split; [reflexivity|]. split; [|split; [|split]]; auto.
      * constructor; [now rewrite Hp|exact Hrel].
      * rewrite results_for_cons. lia.
Qed.

Lemma visit_assistant_spec all a :
  In a all ->
  forall bs t, exists bs' added,
    visit_a a bs t = (Ok bs', t ++ added)
    /\ Forall2 (fun b b' => if pending_for a b then injected' all b b' else b' = b) bs bs'
    /\ quiet added
    /\ search_calls added <= correlated_pairs [a] bs
    /\ http_posts added <= search_calls added.
Proof.
  intros Hin bs t.
  assert (Hskip : forall a', (forall b, pending_for a' b = false) ->
            exists bs' added,
              @ret (list ContentBlock) bs t = (Ok bs', t ++ added)
              /\ Forall2 (fun b b' => if pending_for a' b then injected' all b b' else b' = b) bs bs'
              /\ quiet added
              /\ search_calls added <= correlated_pairs [a'] bs
              /\ http_posts added <= search_calls added).
  { intros a' Ha'. exists bs, []. rewrite List.app_nil_r. repeat split; try (cbn; lia).
    apply Forall2_same. intros b _. now rewrite Ha'. }
  destruct a as [text|id name input|tuid c|o]; try (apply Hskip; reflexivity).
  cbn [visit_assistant_block]. destruct (String.eqb name "WebSearch") eqn:Hn.
  - apply String.eqb_eq in Hn. subst name.
    destruct (for_each_visit all id input Hin bs t) as (bs' & added & Hrun & Hrel & Hq & Hc & Hh).
    exists bs', added. split; [exact Hrun|]. split; [|split; [|split]]; auto.
    + eapply Forall2_impl; [|exact Hrel]. intros b b'. unfold pending_for. cbn.
      now rewrite orb_false_r.
    + cbn. lia.
  - apply Hskip. intros b. unfold pending_for. cbn. now rewrite Hn.
Qed.

Lemma injected_same_id all b b' :
  injected' all b b' -> string_result_id b' = string_result_id b.
Proof. intros (tuid & s & input & t1 & t2 & v & -> & _ & _ & ->). reflexivity. Qed.

Lemma injected_trans all b b1 b' :
  injected' all b b1 -> injected' all b1 b' -> injected' all b b'.
Proof.
  intros (tuid & s & input & t1 & t2 & v & -> & _ & _ & ->)
         (tuid' & s' & input' & t1' & t2' & v' & E & Hin & Hv & ->).
  injection E as <- _. exists tuid, s, input', t1', t2', v'. auto.
Qed.

Lemma fold_visit all :
  forall ab, incl ab all ->
  forall cur t, exists cur' added,
    fold_each visit_a ab cur t = (Ok cur', t ++ added)
    /\ Forall2 (fun b b' => if matched ab b then injected' all b b' else b' = b) cur cur'
    /\ quiet added
    /\ search_calls added <= correlated_pairs ab cur
    /\ http_posts added <= search_calls added.
Proof.
  induction ab as [|a ab IH]; intros Hincl cur t.
  - exists cur, []. rewrite List.app_nil_r. repeat split; try (cbn; lia).
    apply Forall2_same. reflexivity.
  - cbn [fold_each]. unfold bind.
    destruct (visit_assistant_spec all a (Hincl a (or_introl eq_refl)) cur t)
      as (cur1 & added1 & Hrun1 & Hrel1 & Hq1 & Hc1 & Hh1).
    rewrite Hrun1.
    destruct (IH (fun x Hx => Hincl x (or_intror Hx)) cur1 (t ++ added1))
      as (cur' & added2 & Hrun2 & Hrel2 & Hq2 & Hc2 & Hh2).
    rewrite Hrun2. exists cur', (added1 ++ added2). rewrite List.app_assoc.
    split; [reflexivity|]. split; [|split; [|split]].
    + eapply Forall2_compose; [|exact Hrel1|exact Hrel2].
      intros b b1 b'. cbn [matched existsb].
      fold (pending_for a b). fold (matched ab b).
      destruct (pending_for a b); cbn [orb]; intros H1.
      * destruct (matched ab b1); intros H2; [eapply injected_trans; eauto|now subst b'].
      * subst b1. auto.
    + now apply quiet_app.
    + rewrite search_calls_app, correlated_pairs_cons.
      rewrite (correlated_pairs_same_ids ab cur cur1) in Hc2; [lia|].
      eapply Forall2_impl; [|exact Hrel1]. intros b b1. cbv beta.
      destruct (pending_for a b); intros H; [now apply (injected_same_id all)|now subst].
    + rewrite http_posts_app, search_calls_app. lia.
Qed.

(** Nothing is pending: the loops leave the blocks and the trace alone. *)
Lemma fold_visit_idle ab cur t :
  existsb (unresolved_search cur) ab = false ->
  fold_each visit_a ab cur t = (Ok cur, t).
Proof.
  induction ab as [|a ab IH]; [reflexivity|]. cbn [existsb fold_each].
  intros H. apply orb_false_iff in H as [Ha Hab]. unfold bind.
  assert (E : visit_a a cur t = (Ok cur, t)).
  { destruct a as [text|id name input|tuid c|o]; try reflexivity.
    cbn [visit_assistant_block unresolved_search] in *.
    destruct (String.eqb name "WebSearch"); [|reflexivity]. cbn [andb] in Ha.
    clear -Ha. revert t. induction cur as [|b cur IHc]; intros t; [reflexivity|].
    cbn [existsb] in Ha. apply orb_false_iff in Ha as [Hb Hc].
    cbn [for_each]. unfold bind. rewrite (visit_not_pending _ _ _ _ Hb).
    now rewrite (IHc Hc). }
  rewrite E. now apply IH.
Qed.

End InterceptorFacts.

(** *** The last two turns *)

Lemma with_last_content_messages request pre second_last last blocks :
  ClaudeMessagesRequest.messages request = pre ++ [second_last; last] ->
  ClaudeMessagesRequest.messages (with_last_content request last blocks)
  = pre ++ [second_last; {| role := role last; content := Blocks blocks |}].
Proof.
  intros E. unfold with_last_content. cbn [ClaudeMessagesRequest.messages].
  rewrite E, firstn_all_but_last, <- List.app_assoc. reflexivity.
Qed.

Lemma with_last_content_same request pre second_last last blocks :
  ClaudeMessagesRequest.messages request = pre ++ [second_last; last] ->
  content last = Blocks blocks ->
  with_last_content request last blocks = request.
Proof.
  intros E Hc. unfold with_last_content. rewrite E, firstn_all_but_last.
  destruct request as [m mt msgs sys st], last as [r c]. cbn in *. subst.
  now rewrite <- List.app_assoc.
Qed.

Lemma trigger_condition_last_two request pre second_last last :
  ClaudeMessagesRequest.messages request = pre ++ [second_last; last] ->
  trigger_condition request
  = match role second_last, content second_last, role last, content last with
    | assistant, Blocks assistant_blocks, user, Blocks user_blocks =>
        existsb (unresolved_search user_blocks) assistant_blocks
    | _, _, _, _ => false
    end.
Proof. intros E. unfold trigger_condition. now rewrite E, rev_last_two. Qed.

Lemma request_pairs_last_two request pre second_last last :
  ClaudeMessagesRequest.messages request = pre ++ [second_last; last] ->
  request_pairs request
  = match content second_last, content last with
    | Blocks assistant_blocks, Blocks user_blocks =>
        correlated_pairs assistant_blocks user_blocks
    | _, _ => 0
    end.
Proof. intros E. unfold request_pairs. now rewrite E, rev_last_two. Qed.

Lemma trigger_condition_short request :
  length (ClaudeMessagesRequest.messages request) < 2 -> trigger_condition request = false.
Proof.
  unfold trigger_condition. rewrite <- length_rev.
  destruct (rev (ClaudeMessagesRequest.messages request)) as [|a [|b r]]; cbn; try reflexivity.
  lia.
Qed.

(** A pending result of an unresolved search is a matched block. *)
Lemma unresolved_matched assistant_blocks user_blocks :
  existsb (unresolved_search user_blocks) assistant_blocks = true ->
  existsb (matched assistant_blocks) user_blocks = true.
Proof.
  intros H. apply existsb_exists in H as (a & Ha & Hu).
  destruct a as [ |id name input| | ]; try discriminate.
  cbn [unresolved_search] in Hu. apply andb_true_iff in Hu as [Hn Hp].
  apply existsb_exists in Hp as (b & Hb & Hp).
  apply existsb_exists. exists b. split; [exact Hb|].
  apply existsb_exists. exists (ToolUseBlock id name input). split; [exact Ha|].
  cbn. now rewrite Hn, Hp.
Qed.

Section InterceptFacts.

Variable api_key : string.
Variable network : trace -> http_request -> outcome http_response.

Local Abbreviation visit_a := (visit_assistant_block api_key network).
Local Abbreviation intercept := (intercept_websearch_in_request api_key network).

Lemma intercept_short request t :
  length (ClaudeMessagesRequest.messages request) < 2 ->
  intercept request t = (Ok request, t).
Proof.
  intros H. unfold intercept_websearch_in_request.
  destruct (Nat.leb_spec 2 (length (ClaudeMessagesRequest.messages request))); [lia|reflexivity].
Qed.

Lemma intercept_last_two request pre second_last last t :
  ClaudeMessagesRequest.messages request = pre ++ [second_last; last] ->
  intercept request t
  = match content second_last, content last with
    | Blocks assistant_blocks, Blocks user_blocks =>
        if Role_eqb (role second_last) assistant && Role_eqb (role last) user then
          bind (fold_each visit_a assistant_blocks user_blocks)
               (fun blocks' => ret (with_last_content request last blocks')) t
        else (Ok request, t)
    | _, _ => (Ok request, t)
    end.
Proof.
  intros E. unfold intercept_websearch_in_request.
  rewrite E, nth_error_second_last, nth_error_last.
  destruct (Nat.leb_spec 2 (length (pre ++ [second_last; last]))) as [_|H].
  - destruct (content second_last), (content last); try reflexivity.
    destruct (Role_eqb (role second_last) assistant && Role_eqb (role last) user);
      reflexivity.
  - rewrite length_app in H. cbn in H. lia.
Qed.

(** What one run of the interceptor does. *)
Lemma intercept_spec request t :
  (trigger_condition request = false /\ intercept request t = (Ok request, t))
  \/ exists pre second_last last assistant_blocks user_blocks user_blocks' added,
       ClaudeMessagesRequest.messages request = pre ++ [second_last; last]
       /\ content second_last = Blocks assistant_blocks
       /\ content last = Blocks user_blocks
       /\ trigger_condition request = true
       /\ existsb (matched assistant_blocks) user_blocks = true
       /\ intercept request t
          = (Ok (with_last_content request last user_blocks'), t ++ added)
       /\ Forall2 (outcome_of api_key network assistant_blocks) user_blocks user_blocks'
       /\ quiet added
       /\ search_calls added <= request_pairs request
       /\ http_posts added <= search_calls added.
Proof.
  destruct (Nat.lt_ge_cases (length (ClaudeMessagesRequest.messages request)) 2) as [Hs|Hl].
  { left. split; [now apply trigger_condition_short|now apply intercept_short]. }
  destruct (last_two _ Hl) as (pre & sl & last & E).
  rewrite (intercept_last_two request pre sl last t E).
  rewrite (trigger_condition_last_two request pre sl last E).
  rewrite (request_pairs_last_two request pre sl last E).
  destruct (content sl) as [|s|ab] eqn:Csl;
    try (left; split; [destruct (role sl); reflexivity|reflexivity]).
  destruct (content last) as [|s|ub] eqn:Cl;
    try (left; split; [destruct (role sl), (role last); reflexivity|reflexivity]).
  destruct (role sl), (role last); cbn [Role_eqb andb];
    try (left; split; reflexivity).
  destruct (existsb (unresolved_search ub) ab) eqn:T.
  - right.
    destruct (fold_visit api_key network ab ab (incl_refl ab) ub t)
      as (ub' & added & Hrun & Hrel & Hq & Hc & Hh).
    exists pre, sl, last, ab, ub, ub', added.
    unfold bind. rewrite Hrun. unfold ret.
    repeat split; auto. now apply unresolved_matched.
  - left. split; [reflexivity|].
    unfold bind. rewrite (fold_visit_idle api_key network ab ub t T). unfold ret.
    now rewrite (with_last_content_same request pre sl last ub E Cl).
Qed.

End InterceptFacts.

(** C1. Where the trigger condition of section 4.1 does not hold (fewer
    than two turns, a second-to-last turn that is no assistant turn with
    blocks, a last turn that is no user turn with blocks, no WebSearch
    [tool_use] block with a [tool_result] block of its correlation id, or
    no such result whose content is a string with a placeholder marker)
    the interceptor returns the request as it was, and does nothing
    else: the trace of events is unchanged. *)
Theorem intercept_identity_without_trigger :
  forall (api_key : string) (network : trace -> http_request -> outcome http_response)
         (request : ClaudeMessagesRequest.t) (t : trace),
    trigger_condition request = false ->
    intercept_websearch_in_request api_key network request t = (Ok request, t).
Proof.
  intros api_key network request t H.
  destruct (intercept_spec api_key network request t)
    as [[_ E] | (pre & sl & last & ab & ub & ub' & added & _ & _ & _ & T & _)].
  - exact E.
  - rewrite H in T. discriminate.
Qed.

(** The request of [test_websearch.py]: its pending result carries none of
    the markers, and the interceptor leaves it alone. *)
Lemma intercept_identity_without_trigger_witness :
  intercept_websearch_in_request "exa-key" Scenarios.answering Scenarios.test_request []
  = (Ok Scenarios.test_request, []).
Proof.
  apply intercept_identity_without_trigger. reflexivity.
Defined.

Lemma search_result_finite api_key network input t v t' :
  finite_bodies network ->
  search api_key network input t = (Ok v, t') ->
  finite_numbers v = true.
Proof.
  intros Hfin H.
  destruct (Py.truthy_str api_key) eqn:K.
  - destruct (network t (search_request api_key (_map_websearch_to_exa input)))
      as [response|e] eqn:N.
    + destruct (Z.eq_dec (status_code response) 200) as [S|S].
      * destruct (json_body response) as [body|e] eqn:B.
        -- rewrite (search_success api_key network input t response body K N S B) in H.
           injection H as <- _. eapply Hfin; eauto.
        -- rewrite (search_bad_body api_key network input t response e K N S B) in H.
           now injection H as <- _.
      * rewrite (search_bad_status api_key network input t response K N S) in H.
        now injection H as <- _.
    + rewrite (search_transport_error api_key network input t e K N) in H.
      now injection H as <- _.
  - rewrite (search_without_key api_key network input t K) in H. now injection H as <- _.
Qed.

Lemma process_result_finite api_key network input t v t' :
  finite_bodies network ->
  process_websearch_via_exa api_key network input t = (Ok v, t') ->
  finite_numbers v = true.
Proof.
  intros Hfin. unfold process_websearch_via_exa, bind, emit.
  apply search_result_finite. exact Hfin.
Qed.




(** C3, as stated, fails: one call, two placeholder results with its
    correlation id, and the Search Adapter is invoked twice and sends two
    requests. *)
Lemma intercept_searches_twice :
  search_calls
    (snd (intercept_websearch_in_request "exa-key" Scenarios.answering
            (Scenarios.search_request_with Scenarios.one_call Scenarios.two_placeholders) []))
  = 2
  /\ http_posts
       (snd (intercept_websearch_in_request "exa-key" Scenarios.answering
               (Scenarios.search_request_with Scenarios.one_call Scenarios.two_placeholders) []))
     = 2
  /\ ~ (forall api_key network request,
          search_calls (snd (intercept_websearch_in_request api_key network request [])) <= 1).
Proof.
  split; [reflexivity|]. split; [reflexivity|].
  intros H.
  specialize (H "exa-key" Scenarios.answering
                (Scenarios.search_request_with Scenarios.one_call Scenarios.two_placeholders)).
  vm_compute in H. lia.
Qed.

(** C10. The except branch of the interceptor never runs: the Search
    Adapter returns on every input, so no run of the interceptor records a
    failed search, and every block of the last turn that the run changes
    holds the serialisation, by [json.dumps(..., ensure_ascii=False)], of
    what the adapter returned for the input of a WebSearch block with the
    correlation id of that block. *)
Theorem intercept_except_branch_unreachable :
  forall (api_key : string) (network : trace -> http_request -> outcome http_response)
         (request : ClaudeMessagesRequest.t) (t : trace),
    (forall tool_input t0, exists v t1,
        process_websearch_via_exa api_key network tool_input t0 = (Ok v, t1))
    /\ exists request' added,
         intercept_websearch_in_request api_key network request t = (Ok request', t ++ added)
         /\ existsb is_search_failed added = false
         /\ (request' = request
             \/ exists pre second_last last assistant_blocks user_blocks user_blocks',
                  ClaudeMessagesRequest.messages request = pre ++ [second_last; last]
                  /\ content second_last = Blocks assistant_blocks
                  /\ content last = Blocks user_blocks
                  /\ ClaudeMessagesRequest.messages request'
                     = pre ++ [second_last;
                               {| role := role last; content := Blocks user_blocks' |}]
                  /\ Forall2
                       (fun b b' =>
                          b' = b \/ injected api_key network assistant_blocks b b')
                       user_blocks user_blocks').
Proof.
  intros api_key network request t. split.
  - intros input t0.
    destruct (process_websearch_returns api_key network input t0) as (v & t1 & H & _).
    eauto.
  - destruct (intercept_spec api_key network request t)
      as [[_ E] | (pre & sl & last & ab & ub & ub' & added & E & Csl & Cl & _ & _ & R & F & Q & _)].
    + exists request, []. rewrite List.app_nil_r. auto.
    + exists (with_last_content request last ub'), added.
      split; [exact R|]. split; [exact Q|]. right.
      exists pre, sl, last, ab, ub, ub'.
      repeat (split; [assumption|]).
      split; [now apply with_last_content_messages|].
      eapply Forall2_impl; [|exact F]. intros b b'. unfold outcome_of.
      destruct (matched ab b); auto.
Qed.

(** ** The streaming Response Converter: one block at a time *)

Lemma run_steps state l1 l2 :
  run state (l1 ++ l2) = snd (steps state l1) ++ run (fst (steps state l1)) l2.
Proof.
  revert state. induction l1 as [|d l1 IH]; intros state; [reflexivity|].
  cbn [app run steps]. destruct (step state d) as [state' out].
  rewrite IH. destruct (steps state' l1) as [state'' out']. cbn [fst snd].
  now rewrite List.app_assoc.
Qed.

Lemma close_block_in (Q : nat -> Prop) state :
  state_in Q state -> Forall (fun e => Q (event_index e)) (close_block state).
Proof.
  destruct state as [b|]; cbn; [|constructor]. intros H.
  destruct (started b); [|constructor].
  destruct (block_kind b); repeat constructor; exact H.
Qed.

Lemma deliver_in (Q : nat -> Prop) b d :
  Q (block_index b) ->
  Q (block_index (fst (deliver b d)))
  /\ Forall (fun e => Q (event_index e)) (snd (deliver b d)).
Proof.
  intros H. unfold deliver.
  destruct (block_kind b), (started b); cbn; split; repeat constructor; exact H.
Qed.

Lemma step_in (Q : nat -> Prop) state d :
  state_in Q state -> Q (index d) ->
  state_in Q (fst (step state d))
  /\ Forall (fun e => Q (event_index e)) (snd (step state d)).
Proof.
  intros Hs Hd. unfold step.
  set (fresh := {| block_index := index d; block_kind := kind d;
                   started := false; arguments_buffer := "" |}).
  assert (Hf : Q (block_index fresh)) by exact Hd.
  destruct state as [b|].
  - destruct (Nat.eqb (block_index b) (index d)).
    + destruct (deliver_in Q b d Hs) as [H1 H2].
      destruct (deliver b d) as [b' out]. auto.
    + destruct (deliver_in Q fresh d Hf) as [H1 H2].
      destruct (deliver fresh d) as [b' out]. cbn [fst snd] in *. split; [exact H1|].
      apply Forall_app. split; [|exact H2]. now apply (close_block_in Q (Some b)).
  - destruct (deliver_in Q fresh d Hf) as [H1 H2].
    destruct (deliver fresh d) as [b' out]. auto.
Qed.

Lemma steps_in (Q : nat -> Prop) l :
  forall state,
    state_in Q state -> Forall (fun d => Q (index d)) l ->
    state_in Q (fst (steps state l))
    /\ Forall (fun e => Q (event_index e)) (snd (steps state l)).
Proof.
  induction l as [|d l IH]; intros state Hs Hl; [cbn; auto|].
  inversion Hl as [|? ? Hd Hl']; subst. cbn [steps].
  destruct (step_in Q state d Hs Hd) as [H1 H2].
  destruct (step state d) as [state' out]. cbn [fst snd] in *.
  destruct (IH state' H1 Hl') as [H3 H4].
  destruct (steps state' l) as [state'' out']. cbn [fst snd] in *.
  split; [exact H3|]. apply Forall_app. auto.
Qed.

Lemma run_in (Q : nat -> Prop) l state :
  state_in Q state -> Forall (fun d => Q (index d)) l ->
  Forall (fun e => Q (event_index e)) (run state l).
Proof.
  intros Hs Hl. rewrite <- (List.app_nil_r l), run_steps. cbn [run].
  destruct (steps_in Q l state Hs Hl) as [H1 H2].
  apply Forall_app. split; [exact H2|]. now apply close_block_in.
Qed.

(** The deltas of the open block: the block stays open and started, and
    only delta events of the block are produced. *)
Lemma steps_same_block i l :
  Forall (fun d => index d = i) l ->
  forall b, block_index b = i -> started b = true ->
    exists b',
      fst (steps (Some b) l) = Some b'
      /\ block_index b' = i /\ started b' = true
      /\ Forall (fun e => event_index e = i /\ is_delta e = true) (snd (steps (Some b) l)).
Proof.
  induction 1 as [|d l Hd _ IH]; intros b Hb Hs.
  - exists b. cbn. auto.
  - cbn [steps step]. rewrite Hb, Hd, Nat.eqb_refl.
    assert (D : exists b1 out,
               deliver b d = (b1, out) /\ block_index b1 = i /\ started b1 = true
               /\ Forall (fun e => event_index e = i /\ is_delta e = true) out).
    { unfold deliver. rewrite Hs.
      destruct (block_kind b); eexists; eexists; (split; [reflexivity|]);
        cbn; repeat split; auto. }
    destruct D as (b1 & out & -> & Hb1 & Hs1 & Hout).
    destruct (IH b1 Hb1 Hs1) as (b' & E & Hb' & Hs' & Hout').
    destruct (steps (Some b1) l) as [st out']. cbn [fst snd] in *.
    exists b'. repeat split; auto. apply Forall_app. auto.
Qed.

(** The first delta of a block other than the open one: the open block is
    closed, the new block is started. *)
Lemma step_new_block state d :
  state_in (fun j => j <> index d) state ->
  exists b out,
    step state d
    = (Some b, close_block state ++ content_block_start (index d) (kind d) :: out)
    /\ block_index b = index d /\ started b = true
    /\ Forall (fun e => event_index e = index d /\ is_delta e = true) out.
Proof.
  intros Hs. unfold step.
  set (fresh := {| block_index := index d; block_kind := kind d;
                   started := false; arguments_buffer := "" |}).
  assert (D : exists b out,
             deliver fresh d = (b, content_block_start (index d) (kind d) :: out)
             /\ block_index b = index d /\ started b = true
             /\ Forall (fun e => event_index e = index d /\ is_delta e = true) out).
  { unfold deliver. cbn. destruct (kind d); eexists; eexists; (split; [reflexivity|]);
      cbn; repeat split; auto. }
  destruct D as (b & out & E & Hb & Hst & Hout).
  destruct state as [b0|].
  - cbn in Hs. destruct (Nat.eqb_spec (block_index b0) (index d)); [contradiction|].
    rewrite E. exists b, out. auto.
  - rewrite E. exists b, out. auto.
Qed.

(** The closing of a started block: its deltas, if any are buffered, and
    its stop. *)
Lemma close_started b :
  started b = true ->
  exists flush,
    close_block (Some b) = flush ++ [content_block_stop (block_index b)]
    /\ Forall (fun e => event_index e = block_index b /\ is_delta e = true) flush.
Proof.
  intros Hs. cbn. rewrite Hs. destruct (block_kind b).
  - exists []. split; [reflexivity|constructor].
  - eexists [_]. split; [reflexivity|]. repeat constructor.
Qed.

Lemma run_closes b post :
  started b = true ->
  Forall (fun d => block_index b < index d) post ->
  exists after,
    run (Some b) post = close_block (Some b) ++ after
    /\ Forall (fun e => block_index b < event_index e) after.
Proof.
  intros Hs Hpost. destruct post as [|d post].
  - exists []. cbn [run]. rewrite List.app_nil_r. auto.
  - inversion Hpost as [|? ? Hd Hpost']; subst. cbn [run].
    destruct (step_new_block (Some b) d) as (b2 & out & E & Hb2 & Hs2 & Hout).
    { cbn. lia. }
    rewrite E. exists (content_block_start (index d) (kind d) :: out ++ run (Some b2) post).
    split.
    + now rewrite <- List.app_assoc.
    + constructor; [exact Hd|]. apply Forall_app. split.
      * eapply Forall_impl; [|exact Hout]. cbn. intros e [-> _]. exact Hd.
      * apply (run_in (fun j => block_index b < j)); [cbn; lia|exact Hpost'].
Qed.

(** C6. The upstream delta events of block [i] (a non-empty run, after the
    deltas of the blocks before it and before those of the blocks after
    it): the produced sequence has one start event for [i], then only
    delta events of [i], then one stop event for [i]; everything before
    the start belongs to earlier blocks and everything after the stop to
    later blocks.  So the start of [i] is the only one and precedes every
    delta of [i], and the stop of [i] is the only one, follows the last
    delta of [i] and precedes the start of block [i + 1]. *)
Theorem block_events_start_deltas_stop :
  forall (i : nat) (earlier block later : list Delta),
    block <> [] ->
    Forall (fun d => index d < i) earlier ->
    Forall (fun d => index d = i) block ->
    Forall (fun d => i < index d) later ->
    exists k before body after,
      convert (earlier ++ block ++ later)
      = before ++ [content_block_start i k] ++ body ++ [content_block_stop i] ++ after
      /\ Forall (fun e => event_index e < i) before
      /\ Forall (fun e => event_index e = i /\ is_delta e = true) body
      /\ Forall (fun e => i < event_index e) after.
Proof.
  intros i earlier block later Hne He Hb Hl.
  destruct block as [|d1 block]; [contradiction|].
  inversion Hb as [|? ? Hd1 Hb']; subst.
  unfold convert. rewrite run_steps.
  destruct (steps_in (fun j => j < index d1) earlier None I He) as [Hst Hout].
  destruct (steps None earlier) as [st1 out1]. cbn [fst snd] in *.
  cbn [app run].
  destruct (step_new_block st1 d1) as (b & ds1 & E & Hbi & Hbs & Hds1).
  { destruct st1 as [b0|]; cbn in *; [lia|exact I]. }
  rewrite E, run_steps.
  destruct (steps_same_block (index d1) block Hb' b Hbi Hbs) as (b' & E' & Hb'i & Hb's & Hds2).
  destruct (steps (Some b) block) as [st2 ds2]. cbn [fst snd] in *. subst st2.
  destruct (run_closes b' later Hb's) as (after & Erun & Hafter).
  { now rewrite Hb'i. }
  destruct (close_started b' Hb's) as (flush & Eclose & Hflush).
  rewrite Erun, Eclose, Hb'i in *.
  exists (kind d1), (out1 ++ close_block st1), (ds1 ++ ds2 ++ flush), after.
  split; [|split; [|split]].
  - repeat (rewrite <- List.app_assoc || (progress cbn [app])). reflexivity.
  - apply Forall_app. split; [exact Hout|].
    now apply (close_block_in (fun j => j < index d1)).
  - apply Forall_app. split; [exact Hds1|]. apply Forall_app. auto.
  - exact Hafter.
Qed.

(** A text block of two deltas between a text block and a tool call. *)
Lemma block_events_start_deltas_stop_witness :
  exists k before body after,
    convert [ {| index := 0; kind := text_block; fragment := "Let me " |};
              {| index := 1; kind := text_block; fragment := "look " |};
              {| index := 1; kind := text_block; fragment := "that up." |};
              {| index := 2; kind := tool_use_block; fragment := "{" |};
              {| index := 2; kind := tool_use_block; fragment := "}" |} ]
    = before ++ [content_block_start 1 k] ++ body ++ [content_block_stop 1] ++ after
    /\ Forall (fun e => event_index e < 1) before
    /\ Forall (fun e => event_index e = 1 /\ is_delta e = true) body
    /\ Forall (fun e => 1 < event_index e) after.
Proof.
  apply (block_events_start_deltas_stop 1
           [ {| index := 0; kind := text_block; fragment := "Let me " |} ]
           [ {| index := 1; kind := text_block; fragment := "look " |};
             {| index := 1; kind := text_block; fragment := "that up." |} ]
           [ {| index := 2; kind := tool_use_block; fragment := "{" |};
             {| index := 2; kind := tool_use_block; fragment := "}" |} ]).
  - discriminate.
  - repeat constructor.
  - repeat constructor.
  - repeat constructor.
Defined.

Example convert_example :
  convert [ {| index := 0; kind := text_block; fragment := "Hi" |};
            {| index := 1; kind := tool_use_block; fragment := "{" |};
            {| index := 1; kind := tool_use_block; fragment := "}" |} ]
  = [ content_block_start 0 text_block; text_delta 0 "Hi"; content_block_stop 0;
      content_block_start 1 tool_use_block; input_delta 1 "{}"; content_block_stop 1 ].
Proof. reflexivity. Qed.

(* ================================================================== *)
(** * Further properties *)
(* ================================================================== *)

(** ** The Search Adapter on success *)

(** X1. With a key, when the search service answers 200 with a JSON body,
    [search] returns that body as it is and has sent exactly one request:
    a POST of the mapped parameters to https://api.exa.ai/search, with the
    key in the [x-api-key] header and a timeout of 30 seconds. *)
Theorem search_passes_body_through :
  forall (api_key : string) (network : trace -> http_request -> outcome http_response)
         (websearch_input : dict) (t : trace) (response : http_response) (body : json),
    Py.truthy_str api_key = true ->
    network t (search_request api_key (_map_websearch_to_exa websearch_input)) = Ok response ->
    status_code response = 200%Z ->
    json_body response = Ok body ->
    exists req,
      search api_key network websearch_input t = (Ok body, t ++ [HttpPost req])
      /\ url req = "https://api.exa.ai/search"
      /\ headers req = [("x-api-key", api_key); ("Content-Type", "application/json")]
      /\ payload req = JObj (_map_websearch_to_exa websearch_input)
      /\ timeout req = 30%Z.
Proof.
  intros api_key network input t response body K N S B.
  exists (search_request api_key (_map_websearch_to_exa input)).
  split; [now apply (search_success api_key network input t response body)|].
  repeat split.
Qed.

Lemma search_passes_body_through_witness :
  exists req,
    search "exa-key" Scenarios.answering
      [("query", JStr "quantum computing breakthroughs 2025")] []
    = (Ok (JObj [ ("requestId", JStr "r1");
                  ("results", JArr [JObj [("title", JStr "Qubits")]]) ]),
       [HttpPost req])
    /\ url req = "https://api.exa.ai/search".
Proof.
  destruct (search_passes_body_through "exa-key" Scenarios.answering
              [("query", JStr "quantum computing breakthroughs 2025")] []
              {| status_code := 200; text := "";
                 json_body := Ok (JObj [ ("requestId", JStr "r1");
                                         ("results", JArr [JObj [("title", JStr "Qubits")]]) ]) |}
              (JObj [ ("requestId", JStr "r1");
                      ("results", JArr [JObj [("title", JStr "Qubits")]]) ])
              eq_refl eq_refl eq_refl eq_refl) as (req & H & U & _).
  exists req. split; [exact H|exact U].
Defined.

(** ** The parameter mapping on every input *)

(** X2. For every input, whatever the values under its keys: the mapped
    parameters carry [includeDomains] exactly when the value of
    [allowed_domains] is true in a condition (not absent, None, false,
    zero or empty), and then that very value; likewise [excludeDomains]
    for [blocked_domains]; the keys are query, type, numResults, contents,
    the filters that are present, startCrawlDate, in this order and each
    once; and the query goes into the summary too. *)
Theorem map_websearch_to_exa_filters :
  forall websearch_input : dict,
    let exa_params := _map_websearch_to_exa websearch_input in
    let allowed := get websearch_input "allowed_domains" (JArr []) in
    let blocked := get websearch_input "blocked_domains" (JArr []) in
    lookup "includeDomains" exa_params = (if truthy allowed then Some allowed else None)
    /\ lookup "excludeDomains" exa_params = (if truthy blocked then Some blocked else None)
    /\ keys exa_params
       = ["query"; "type"; "numResults"; "contents"]
           ++ (if truthy allowed then ["includeDomains"] else [])
           ++ (if truthy blocked then ["excludeDomains"] else [])
           ++ ["startCrawlDate"]
    /\ NoDup (keys exa_params)
    /\ member "query" (member "summary" (lookup "contents" exa_params))
       = Some (get websearch_input "query" (JStr "")).
Proof.
  intros d exa_params allowed blocked. subst exa_params allowed blocked.
  unfold _map_websearch_to_exa.
  destruct (truthy (get d "allowed_domains" (JArr [])));
    destruct (truthy (get d "blocked_domains" (JArr [])));
    cbn; repeat split;
    repeat (constructor; [cbn; intuition discriminate|]); constructor.
Qed.

(** X3. The mapping reads the keys query, allowed_domains and
    blocked_domains of its input and nothing else: two inputs that agree
    on these three keys are mapped to the same parameters, so no other
    member of a tool input reaches the search service. *)
Theorem map_websearch_to_exa_reads_three_keys :
  forall d d' : dict,
    lookup "query" d = lookup "query" d' ->
    lookup "allowed_domains" d = lookup "allowed_domains" d' ->
    lookup "blocked_domains" d = lookup "blocked_domains" d' ->
    _map_websearch_to_exa d = _map_websearch_to_exa d'.
Proof.
  intros d d' Q A B. unfold _map_websearch_to_exa, get. now rewrite Q, A, B.
Qed.

Lemma map_websearch_to_exa_reads_three_keys_witness :
  _map_websearch_to_exa [ ("query", JStr "rust async");
                          ("session", JStr "s-42");
                          ("allowed_domains", JArr [JStr "docs.rs"]) ]
  = _map_websearch_to_exa [ ("allowed_domains", JArr [JStr "docs.rs"]);
                            ("query", JStr "rust async") ].
Proof.
  apply map_websearch_to_exa_reads_three_keys; reflexivity.
Defined.

(** ** The two headers of validate_api_key *)

(** X4. The [x-api-key] header comes first: when it is a non-empty string
    the verdict does not depend on [Authorization] at all (a valid Bearer
    token does not rescue a wrong [x-api-key]); when it is the empty
    string the verdict is the one of a request without that header. *)
Theorem validate_api_key_header_precedence :
  forall (anthropic_api_key : option string) (validate_client_api_key : string -> bool)
         (k : string) (authorization authorization' : option string),
    (Py.truthy_str k = true ->
     validate_api_key anthropic_api_key validate_client_api_key (Some k) authorization
     = validate_api_key anthropic_api_key validate_client_api_key (Some k) authorization')
    /\ validate_api_key anthropic_api_key validate_client_api_key (Some "") authorization
       = validate_api_key anthropic_api_key validate_client_api_key None authorization.
Proof.
  intros key check k a a'. split; [|reflexivity].
  intros Hk. unfold validate_api_key, client_api_key. cbn [Py.truthy_opt].
  now rewrite Hk.
Qed.

Lemma validate_api_key_header_precedence_witness :
  exists e,
    validate_api_key (Some "test-client-key") (String.eqb "test-client-key")
      (Some "wrong") (Some "Bearer test-client-key") = Raises e
    /\ status e = 401%Z.
Proof.
  destruct (validate_api_key_header_precedence (Some "test-client-key")
              (String.eqb "test-client-key") "wrong"
              (Some "Bearer test-client-key") None) as [H _].
  rewrite (H eq_refl). eexists. split; reflexivity.
Defined.

(** ** What count_tokens depends on *)

Lemma zsum_app l l' : zsum (l ++ l') = (zsum l + zsum l')%Z.
Proof. unfold zsum. induction l as [|x l IH]; cbn [app fold_right]; lia. Qed.

Lemma zsum_text_only blocks :
  zsum (map block_text_length (filter has_text blocks))
  = zsum (map block_text_length blocks).
Proof.
  unfold zsum. induction blocks as [|b blocks IH]; [reflexivity|].
  destruct b as [text| | |[[text|]|]]; cbn [filter has_text map fold_right block_text_length];
    rewrite IH; lia.
Qed.

Lemma message_text_length_text_only msg :
  message_text_length (text_only msg) = message_text_length msg.
Proof.
  unfold text_only, message_text_length. destruct (content msg) eqn:E; cbn;
    rewrite ?E; try reflexivity. apply zsum_text_only.
Qed.

Lemma message_text_length_nonneg msg : (0 <= message_text_length msg)%Z.
Proof.
  unfold message_text_length. destruct (content msg); [lia|apply len_nonneg|].
  apply zsum_nonneg. intros b.
  destruct b as [text| | |[[text|]|]]; cbn; try lia; apply len_nonneg.
Qed.

Lemma input_tokens_count_tokens request :
  input_tokens (count_tokens request) = Z.max 1 (character_count request / 4).
Proof. now rewrite count_tokens_character_count. Qed.

(** X5. The estimate depends on the text alone: it is the same after the
    blocks without text (tool_use, tool_result, a block whose text is
    absent or None) are dropped from every message, whatever the roles and
    the model name are; and one more message never lowers it. *)
Theorem count_tokens_depends_on_text :
  forall (model model' : string) (messages : list Message)
         (system : option SystemPrompt) (msg : Message),
    count_tokens {| ClaudeTokenCountRequest.model := model';
                    ClaudeTokenCountRequest.messages := map text_only messages;
                    ClaudeTokenCountRequest.system := system |}
    = count_tokens {| ClaudeTokenCountRequest.model := model;
                      ClaudeTokenCountRequest.messages := messages;
                      ClaudeTokenCountRequest.system := system |}
    /\ (input_tokens
          (count_tokens {| ClaudeTokenCountRequest.model := model;
                           ClaudeTokenCountRequest.messages := messages;
                           ClaudeTokenCountRequest.system := system |})
        <= input_tokens
             (count_tokens {| ClaudeTokenCountRequest.model := model;
                              ClaudeTokenCountRequest.messages := messages ++ [msg];
                              ClaudeTokenCountRequest.system := system |}))%Z.
Proof.
  intros model model' messages system msg. split.
  - rewrite !count_tokens_character_count. unfold character_count.
    cbn [ClaudeTokenCountRequest.messages ClaudeTokenCountRequest.system].
    rewrite map_map.
    rewrite (map_ext _ _ message_text_length_text_only). reflexivity.
  - rewrite !input_tokens_count_tokens. unfold character_count.
    cbn [ClaudeTokenCountRequest.messages ClaudeTokenCountRequest.system].
    rewrite map_app, zsum_app. cbn [map]. unfold zsum at 3. cbn [fold_right].
    pose proof (message_text_length_nonneg msg).
    apply Z.max_le_compat_l. apply Z.div_le_mono; lia.
Qed.

(** ** The status endpoints and the validation of the client key *)

(** X6. The flag [client_api_key_validation] of [/] and of [/health] says
    what [validate_api_key] does: the two endpoints report the same flag;
    when it is false every request passes the validation, whatever its
    headers; when it is true a request without credentials is refused with
    status 401. *)
Theorem status_reports_client_key_validation :
  forall (config : StatusEndpoints.Config) (now : string)
         (validate_client_api_key : string -> bool),
    exists flag : bool,
      lookup "client_api_key_validation" (StatusEndpoints.health_check config now)
      = Some (JBool flag)
      /\ member "client_api_key_validation"
           (lookup "config" (StatusEndpoints.root config))
         = Some (JBool flag)
      /\ (flag = false ->
          forall x_api_key authorization,
            validate_api_key (StatusEndpoints.anthropic_api_key config)
              validate_client_api_key x_api_key authorization = Returns tt)
      /\ (flag = true ->
          exists e,
            validate_api_key (StatusEndpoints.anthropic_api_key config)
              validate_client_api_key None None = Raises e
            /\ status e = 401%Z).
Proof.
  intros config now check.
  exists (Py.truthy_opt (StatusEndpoints.anthropic_api_key config)).
  split; [reflexivity|]. split; [reflexivity|]. split.
  - intros H x a. now apply validate_skipped.
  - intros H. apply validate_rejects; [exact H|]. left. reflexivity.
Qed.

Lemma status_reports_client_key_validation_witness :
  exists e,
    validate_api_key (Some "test-client-key") (String.eqb "test-client-key") None None
    = Raises e
    /\ status e = 401%Z.
Proof.
  destruct (status_reports_client_key_validation
              {| StatusEndpoints.openai_api_key := Some "sk-test";
                 StatusEndpoints.openai_base_url := "https://api.openai.com/v1";
                 StatusEndpoints.anthropic_api_key := Some "test-client-key";
                 StatusEndpoints.max_tokens_limit := 4096;
                 StatusEndpoints.big_model := "gpt-4o";
                 StatusEndpoints.small_model := "gpt-4o-mini";
                 StatusEndpoints.api_key_valid := true |}
              "2025-01-01T00:00:00" (String.eqb "test-client-key"))
    as (flag & Hh & _ & _ & Hrej).
  injection Hh as Hflag. apply Hrej. now rewrite <- Hflag.
Defined.

(** ** The searches of one run of the interceptor *)

Lemma outcome_unique {A} (x y : A) (t a b : trace) :
  (Ok x, t ++ a) = (Ok y, t ++ b) -> x = y /\ a = b.
Proof. intros H. injection H as -> H. apply app_inv_head in H. auto. Qed.

Lemma search_calls_cons_call input t : search_calls (SearchCall input :: t) = S (search_calls t).
Proof. reflexivity. Qed.

Section SearchTrace.

Variable api_key : string.
Variable network : trace -> http_request -> outcome http_response.

Local Abbreviation visit_u := (visit_user_block api_key network).
Local Abbreviation visit_a := (visit_assistant_block api_key network).
Local Abbreviation intercept := (intercept_websearch_in_request api_key network).
Local Abbreviation process := (process_websearch_via_exa api_key network).

(** The events of one invocation of the adapter: the call, and with a key
    the one request. *)
Lemma process_events input t :
  exists v added,
    process input t = (Ok v, t ++ added)
    /\ search_calls added = 1
    /\ (added = [SearchCall input]
        \/ (Py.truthy_str api_key = true
            /\ added = [SearchCall input;
                        HttpPost (search_request api_key (_map_websearch_to_exa input))])).
Proof.
  destruct (Py.truthy_str api_key) eqn:K.
  - destruct (process_websearch_returns api_key network input t) as (v & t' & H & [-> | ->]);
      exists v; eexists; (split; [exact H|]); split; try reflexivity; auto.
  - exists (_create_error_response "EXA_API_KEY not configured"), [SearchCall input].
    split; [|split; [reflexivity|now left]].
    unfold process_websearch_via_exa, bind, emit.
    now rewrite (search_without_key api_key network input _ K).
Qed.

Lemma process_without_key input t v t' :
  Py.truthy_str api_key = false ->
  process input t = (Ok v, t') ->
  v = _create_error_response "EXA_API_KEY not configured".
Proof.
  intros K. unfold process_websearch_via_exa, bind, emit.
  rewrite (search_without_key api_key network input _ K). now intros [= <- _].
Qed.

Lemma process_search_events all id input added :
  In (ToolUseBlock id "WebSearch" input) all ->
  added = [SearchCall input]
  \/ (Py.truthy_str api_key = true
      /\ added = [SearchCall input;
                  HttpPost (search_request api_key (_map_websearch_to_exa input))]) ->
  Forall (search_event api_key all) added.
Proof.
  intros Hin [-> | [K ->]]; repeat constructor; cbn; eauto.
Qed.

Lemma visit_user_events all id input b t :
  In (ToolUseBlock id "WebSearch" input) all ->
  exists b' added,
    visit_u id input b t = (Ok b', t ++ added)
    /\ Forall (search_event api_key all) added
    /\ search_calls added = (if pending_result id b then 1 else 0).
Proof.
  intros Hin. destruct (pending_result id b) eqn:Hp.
  - destruct b as [ | |tuid [s|v]| ]; try discriminate. cbn [pending_result] in Hp.
    apply andb_true_iff in Hp as [Hid Hp]. apply String.eqb_eq in Hid. subst tuid.
    destruct (process_events input t) as (v & added & Hv & Hc & Hshape).
    exists (ToolResultBlock id (ResultStr (dumps false v))), added.
    split; [|split; [now apply (process_search_events all id input)|exact Hc]].
    cbn [visit_user_block]. rewrite String.eqb_refl, Hp.
    unfold try_except, bind. now rewrite Hv.
  - exists b, []. rewrite List.app_nil_r. split; [|split; [constructor|reflexivity]].
    now apply visit_not_pending.
Qed.

Lemma for_each_visit_events all id input :
  In (ToolUseBlock id "WebSearch" input) all ->
  forall bs t, exists bs' added,
    for_each (visit_u id input) bs t = (Ok bs', t ++ added)
    /\ Forall (search_event api_key all) added
    /\ search_calls added = length (filter (pending_result id) bs).
Proof.
  intros Hin. induction bs as [|b bs IH]; intros t.
  - exists [], []. rewrite List.app_nil_r. repeat split. constructor.
  - cbn [for_each]. unfold bind at 1.
    destruct (visit_user_events all id input b t Hin) as (b' & added1 & H1 & E1 & C1).
    rewrite H1. unfold bind at 1.
    destruct (IH (t ++ added1)) as (bs' & added2 & H2 & E2 & C2).
    rewrite H2. unfold ret. exists (b' :: bs'), (added1 ++ added2).
    rewrite List.app_assoc. split; [reflexivity|]. split.
    + apply Forall_app. auto.
    + rewrite search_calls_app, C1, C2. cbn [filter].
      destruct (pending_result id b); reflexivity.
Qed.

Lemma visit_assistant_events all a :
  In a all ->
  forall bs t, exists bs' added,
    visit_a a bs t = (Ok bs', t ++ added)
    /\ Forall (search_event api_key all) added
    /\ search_calls added = length (filter (pending_for a) bs).
Proof.
  intros Hin bs t.
  assert (Hskip : (forall b, pending_for a b = false) ->
            exists bs' added,
              @ret (list ContentBlock) bs t = (Ok bs', t ++ added)
              /\ Forall (search_event api_key all) added
              /\ search_calls added = length (filter (pending_for a) bs)).
  { intros Ha. exists bs, []. rewrite List.app_nil_r. split; [reflexivity|].
    split; [constructor|].
    rewrite (filter_ext _ (fun _ => false) Ha).
    clear. induction bs; [reflexivity|exact IHbs]. }
  destruct a as [text|id name input|tuid c|o]; try (apply Hskip; reflexivity).
  cbn [visit_assistant_block]. destruct (String.eqb name "WebSearch") eqn:Hn.
  - apply String.eqb_eq in Hn. subst name.
    destruct (for_each_visit_events all id input Hin bs t) as (bs' & added & H & E & C).
    exists bs', added. split; [exact H|]. split; [exact E|]. rewrite C.
    f_equal. apply filter_ext. intros b. unfold pending_for. cbn.
    now rewrite orb_false_r.
  - apply Hskip. intros b. unfold pending_for. cbn. now rewrite Hn.
Qed.

Lemma unresolved_search_pending cur a :
  unresolved_search cur a = existsb (pending_for a) cur.
Proof.
  destruct a as [text|id name input|tuid c|o];
    try (induction cur; [reflexivity|assumption]).
  unfold pending_for. cbn [unresolved_search].
  destruct (String.eqb name "WebSearch"); cbn [andb].
  - induction cur as [|b cur IH]; [reflexivity|]. cbn [existsb]. rewrite IH.
    now rewrite orb_false_r.
  - induction cur; [reflexivity|assumption].
Qed.


Lemma for_each_idle id input cur t :
  existsb (pending_result id) cur = false ->
  for_each (visit_u id input) cur t = (Ok cur, t).
Proof.
  revert t. induction cur as [|b cur IH]; intros t H; [reflexivity|].
  cbn [existsb] in H. apply orb_false_iff in H as [Hb Hc].
  cbn [for_each]. unfold bind.
  rewrite (visit_not_pending api_key network id input b t Hb). now rewrite (IH t Hc).
Qed.

Lemma visit_assistant_idle a cur t :
  unresolved_search cur a = false -> visit_a a cur t = (Ok cur, t).
Proof.
  destruct a as [text|id name input|tuid c|o]; try reflexivity.
  cbn [visit_assistant_block unresolved_search].
  destruct (String.eqb name "WebSearch"); [|reflexivity]. cbn [andb].
  apply for_each_idle.
Qed.

Lemma existsb_filter {A} (f : A -> bool) l :
  existsb f l = true -> 1 <= length (filter f l).
Proof.
  induction l as [|x l IH]; [discriminate|]. cbn [existsb filter].
  destruct (f x); cbn; [lia|auto].
Qed.

Lemma websearch_ids_in id input l :
  In (ToolUseBlock id "WebSearch" input) l -> In id (websearch_ids l).
Proof.
  induction l as [|a l IH]; [contradiction|]. intros [-> | H].
  - cbn. now left.
  - specialize (IH H). destruct a as [ |id' name' input'| | ]; cbn; auto.
    destruct (String.eqb name' "WebSearch"); [now right|exact IH].
Qed.

Lemma pending_for_id a b :
  pending_for a b = true ->
  exists id input, a = ToolUseBlock id "WebSearch" input /\ string_result_id b = Some id.
Proof.
  unfold pending_for. destruct a as [ |id name input| | ]; try discriminate. cbn.
  rewrite orb_false_r. intros H. apply andb_true_iff in H as [Hn Hp].
  apply String.eqb_eq in Hn. subst name. exists id, input. split; [reflexivity|].
  destruct b as [ | |tuid [s|v]| ]; try discriminate. cbn in *.
  apply andb_true_iff in Hp as [Hid _]. apply String.eqb_eq in Hid. now subst.
Qed.

Lemma matched_id rest b :
  matched rest b = true ->
  exists i, string_result_id b = Some i /\ In i (websearch_ids rest).
Proof.
  unfold matched. intros H. apply existsb_exists in H as (a & Ha & Hp).
  fold (pending_for a b) in Hp.
  destruct (pending_for_id a b Hp) as (id & input & -> & Hid).
  exists id. split; [exact Hid|]. eapply websearch_ids_in; eauto.
Qed.

Lemma NoDup_websearch_ids_cons a rest :
  NoDup (websearch_ids (a :: rest)) ->
  NoDup (websearch_ids rest)
  /\ forall b b', pending_for a b = true ->
       string_result_id b' = string_result_id b -> matched rest b' = false.
Proof.
  intros H. split.
  - destruct a as [ |id name input| | ]; cbn in H; auto.
    destruct (String.eqb name "WebSearch"); [now inversion H|exact H].
  - intros b b' Hp Hid.
    destruct (pending_for_id a b Hp) as (id & input & -> & Hb).
    cbn in H. inversion H as [|? ? Hnotin _]; subst.
    destruct (matched rest b') eqn:M; [|reflexivity].
    destruct (matched_id rest b' M) as (i & Hi & Hin).
    rewrite Hid, Hb in Hi. injection Hi as <-. contradiction.
Qed.

(** The matched blocks after one more assistant block. *)
Lemma matched_count_step a rest cur cur1 :
  (forall b b', pending_for a b = true ->
     string_result_id b' = string_result_id b -> matched rest b' = false) ->
  Forall2 (fun b b1 => if pending_for a b
                       then string_result_id b1 = string_result_id b else b1 = b)
          cur cur1 ->
  length (filter (pending_for a) cur) + matched_count rest cur1
  = matched_count (a :: rest) cur.
Proof.
  intros Hsep. unfold matched_count.
  induction 1 as [|b b1 cur cur1 Hb _ IH]; [reflexivity|].
  cbn [filter]. change (matched (a :: rest) b) with (pending_for a b || matched rest b).
  destruct (pending_for a b) eqn:Hp; cbn [orb].
  - rewrite (Hsep b b1 Hp Hb). cbn [length]. lia.
  - subst b1. destruct (matched rest b); cbn [length]; lia.
Qed.

Lemma fold_visit_events all :
  forall ab, incl ab all ->
  forall cur t, exists cur' added,
    fold_each visit_a ab cur t = (Ok cur', t ++ added)
    /\ Forall (search_event api_key all) added
    /\ (existsb (unresolved_search cur) ab = true -> 1 <= search_calls added)
    /\ (NoDup (websearch_ids ab) -> search_calls added = matched_count ab cur).
Proof.
  induction ab as [|a ab IH]; intros Hincl cur t.
  - exists cur, []. rewrite List.app_nil_r. repeat split; try constructor; try discriminate.
    intros _. unfold matched_count. cbn. clear. induction cur; [reflexivity|assumption].
  - cbn [fold_each]. unfold bind.
    destruct (visit_assistant_events all a (Hincl a (or_introl eq_refl)) cur t)
      as (cur1 & added1 & Hrun1 & Hev1 & Hc1).
    destruct (visit_assistant_spec api_key network all a (Hincl a (or_introl eq_refl)) cur t)
      as (cur1' & added1' & Hrun1' & Hrel & _).
    rewrite Hrun1 in Hrun1'. apply outcome_unique in Hrun1' as [<- <-].
    rewrite Hrun1.
    destruct (IH (fun x Hx => Hincl x (or_intror Hx)) cur1 (t ++ added1))
      as (cur' & added2 & Hrun2 & Hev2 & Hlow & Hexact).
    rewrite Hrun2. exists cur', (added1 ++ added2). rewrite List.app_assoc.
    split; [reflexivity|]. split; [apply Forall_app; auto|]. split.
    + cbn [existsb]. intros H. rewrite search_calls_app.
      destruct (unresolved_search cur a) eqn:U.
      * rewrite unresolved_search_pending in U. apply existsb_filter in U. lia.
      * cbn [orb] in H. rewrite (visit_assistant_idle a cur t U) in Hrun1.
        change (Ok cur, t) with (@Ok (list ContentBlock) cur, t) in Hrun1.
        rewrite <- (List.app_nil_r t) in Hrun1 at 1.
        apply outcome_unique in Hrun1 as [<- <-]. cbn. auto.
    + intros Hnd. apply NoDup_websearch_ids_cons in Hnd as [Hnd Hsep].
      rewrite search_calls_app, Hc1, (Hexact Hnd).
      apply matched_count_step; [exact Hsep|].
      eapply Forall2_impl; [|exact Hrel]. intros b b1. cbv beta.
      destruct (pending_for a b); [apply injected_same_id|auto].
Qed.

End SearchTrace.

Lemma assistant_blocks_of_last_two request pre second_last last assistant_blocks :
  ClaudeMessagesRequest.messages request = pre ++ [second_last; last] ->
  content second_last = Blocks assistant_blocks ->
  assistant_blocks_of request = assistant_blocks.
Proof. intros E C. unfold assistant_blocks_of. now rewrite E, rev_last_two, C. Qed.

Lemma websearch_input_unique ab id input input' :
  NoDup (websearch_ids ab) ->
  In (ToolUseBlock id "WebSearch" input) ab ->
  In (ToolUseBlock id "WebSearch" input') ab ->
  input' = input.
Proof.
  induction ab as [|a ab IH]; [contradiction|]. intros Hnd H H'.
  assert (Htail : NoDup (websearch_ids ab)).
  { destruct a as [ |i n inp| | ]; cbn in Hnd; auto.
    destruct (String.eqb n "WebSearch"); [now inversion Hnd|exact Hnd]. }
  destruct H as [-> | H], H' as [E | H'].
  - now injection E.
  - cbn in Hnd. inversion Hnd as [|? ? Hnotin _]; subst.
    exfalso. apply Hnotin. eapply websearch_ids_in; eauto.
  - subst a. cbn in Hnd. inversion Hnd as [|? ? Hnotin _]; subst.
    exfalso. apply Hnotin. eapply websearch_ids_in; eauto.
  - now apply IH.
Qed.

Section InterceptTrace.

Variable api_key : string.
Variable network : trace -> http_request -> outcome http_response.

Local Abbreviation intercept := (intercept_websearch_in_request api_key network).

(** What one run of the interceptor does, with its searches. *)
Lemma intercept_searches request t :
  (trigger_condition request = false /\ intercept request t = (Ok request, t))
  \/ exists pre second_last last assistant_blocks user_blocks user_blocks' added,
       ClaudeMessagesRequest.messages request = pre ++ [second_last; last]
       /\ content second_last = Blocks assistant_blocks
       /\ content last = Blocks user_blocks
       /\ trigger_condition request = true
       /\ intercept request t
          = (Ok (with_last_content request last user_blocks'), t ++ added)
       /\ Forall2 (outcome_of api_key network assistant_blocks) user_blocks user_blocks'
       /\ Forall (search_event api_key assistant_blocks) added
       /\ 1 <= search_calls added
       /\ (NoDup (websearch_ids assistant_blocks) ->
           search_calls added = matched_count assistant_blocks user_blocks).
Proof.
  destruct (intercept_spec api_key network request t)
    as [H | (pre & sl & last & ab & ub & ub' & added & E & Csl & Cl & T & _ & R & F & _)];
    [now left|right].
  exists pre, sl, last, ab, ub, ub', added.
  repeat (split; [assumption|]).
  pose proof T as T'. rewrite (trigger_condition_last_two request pre sl last E) in T'.
  rewrite Csl, Cl in T'.
  destruct (role sl) eqn:Rsl; [discriminate|]. destruct (role last) eqn:Rl; [|discriminate].
  destruct (fold_visit_events api_key network ab ab (incl_refl ab) ub t)
    as (cur' & added' & Hrun & Hev & Hlow & Hexact).
  rewrite (intercept_last_two api_key network request pre sl last t E) in R.
  rewrite Csl, Cl, Rsl, Rl in R. cbn [Role_eqb andb] in R.
  unfold bind in R. rewrite Hrun in R. unfold ret in R.
  apply outcome_unique in R as [_ <-].
  split; [exact Hev|]. split; [now apply Hlow|exact Hexact].
Qed.

End InterceptTrace.

(** X7. Whatever a run of the interceptor asks of the Search Adapter and
    sends to the search service comes from the last assistant turn: every
    invocation of the adapter has the input of one of its WebSearch
    [tool_use] blocks, every request is the one that [search] builds from
    such an input (and is sent only when a key is configured), and the
    except branch never runs. *)
Theorem intercept_searches_only_websearch_inputs :
  forall (api_key : string) (network : trace -> http_request -> outcome http_response)
         (request : ClaudeMessagesRequest.t) (t : trace),
    exists request' added,
      intercept_websearch_in_request api_key network request t = (Ok request', t ++ added)
      /\ Forall (search_event api_key (assistant_blocks_of request)) added.
Proof.
  intros api_key network request t.
  destruct (intercept_searches api_key network request t)
    as [[_ E] | (pre & sl & last & ab & ub & ub' & added & E & Csl & _ & _ & R & _ & Hev & _)].
  - exists request, []. rewrite List.app_nil_r. split; [exact E|constructor].
  - exists (with_last_content request last ub'), added. split; [exact R|].
    now rewrite (assistant_blocks_of_last_two request pre sl last ab E Csl).
Qed.

(** X8. The interceptor searches exactly when the trigger condition
    holds: with the condition it invokes the Search Adapter at least once;
    without it the run adds no event and returns the request itself. *)
Theorem intercept_searches_iff_trigger :
  forall (api_key : string) (network : trace -> http_request -> outcome http_response)
         (request : ClaudeMessagesRequest.t) (t : trace),
    exists request' added,
      intercept_websearch_in_request api_key network request t = (Ok request', t ++ added)
      /\ if trigger_condition request
         then 1 <= search_calls added
         else added = [] /\ request' = request.
Proof.
  intros api_key network request t.
  destruct (intercept_searches api_key network request t)
    as [[T E] | (pre & sl & last & ab & ub & ub' & added & _ & _ & _ & T & R & _ & _ & Hlow & _)].
  - exists request, []. rewrite List.app_nil_r, T. auto.
  - exists (with_last_content request last ub'), added. rewrite T. auto.
Qed.

(** X9. With distinct correlation ids on the WebSearch blocks of the
    assistant turn, one run of the interceptor invokes the Search Adapter
    exactly once for each matched [tool_result] block, and each matched
    block gets the serialisation of what the adapter returned for the
    input of its own [tool_use] block, the only WebSearch block with its
    correlation id. *)
Theorem intercept_one_search_per_matched_block :
  forall (api_key : string) (network : trace -> http_request -> outcome http_response)
         (request : ClaudeMessagesRequest.t) (t : trace),
    trigger_condition request = true ->
    NoDup (websearch_ids (assistant_blocks_of request)) ->
    exists request' added pre second_last last assistant_blocks user_blocks user_blocks',
      intercept_websearch_in_request api_key network request t = (Ok request', t ++ added)
      /\ ClaudeMessagesRequest.messages request = pre ++ [second_last; last]
      /\ content second_last = Blocks assistant_blocks
      /\ content last = Blocks user_blocks
      /\ ClaudeMessagesRequest.messages request'
         = pre ++ [second_last; {| role := role last; content := Blocks user_blocks' |}]
      /\ search_calls added = matched_count assistant_blocks user_blocks
      /\ Forall2
           (fun b b' =>
              if matched assistant_blocks b then
                exists id s tool_input t1 t2 v,
                  b = ToolResultBlock id (ResultStr s)
                  /\ In (ToolUseBlock id "WebSearch" tool_input) assistant_blocks
                  /\ (forall other, In (ToolUseBlock id "WebSearch" other) assistant_blocks ->
                      other = tool_input)
                  /\ process_websearch_via_exa api_key network tool_input t1 = (Ok v, t2)
                  /\ b' = ToolResultBlock id (ResultStr (dumps false v))
              else b' = b)
           user_blocks user_blocks'.
Proof.
  intros api_key network request t T Hnd.
  destruct (intercept_searches api_key network request t)
    as [[T' _] | (pre & sl & last & ab & ub & ub' & added & E & Csl & Cl & _ & R & F & _ & _ & Hexact)].
  - rewrite T in T'. discriminate.
  - rewrite (assistant_blocks_of_last_two request pre sl last ab E Csl) in Hnd.
    exists (with_last_content request last ub'), added, pre, sl, last, ab, ub, ub'.
    split; [exact R|]. repeat (split; [assumption|]).
    split; [now apply with_last_content_messages|]. split; [now apply Hexact|].
    eapply Forall2_impl; [|exact F]. intros b b'. unfold outcome_of.
    destruct (matched ab b); [|auto].
    intros (id & s & input & t1 & t2 & v & -> & Hin & Hv & ->).
    exists id, s, input, t1, t2, v. repeat split; auto.
    intros other Hother. now apply (websearch_input_unique ab id input other).
Qed.

Lemma intercept_one_search_per_matched_block_witness :
  exists request' added,
    intercept_websearch_in_request "exa-key" Scenarios.answering
      (Scenarios.search_request_with Scenarios.one_call Scenarios.two_placeholders) []
    = (Ok request', added)
    /\ search_calls added = 2.
Proof.
  destruct (intercept_one_search_per_matched_block "exa-key" Scenarios.answering
              (Scenarios.search_request_with Scenarios.one_call Scenarios.two_placeholders) []
              eq_refl)
    as (request' & added & pre & sl & last & ab & ub & ub' & R & E & Csl & Cl & _ & C & _).
  { cbn. repeat constructor. intros []. }
  exists request', added. split; [exact R|].
  cbn in E. destruct pre as [|m0 [|m1 [|m2 pre]]]; try discriminate E.
  2:{ destruct pre; discriminate E. }
  injection E as <- <- <-. cbn in Csl, Cl. injection Csl as <-. injection Cl as <-.
  exact C.
Defined.

(** ** Without a key *)

Lemma missing_key_content_no_placeholder : placeholder missing_key_content = false.
Proof. vm_compute. reflexivity. Qed.

Lemma not_placeholder_not_matched ab id s :
  placeholder s = false -> matched ab (ToolResultBlock id (ResultStr s)) = false.
Proof.
  intros H. unfold matched. induction ab as [|a ab IH]; [reflexivity|].
  cbn [existsb]. rewrite IH, orb_false_r.
  destruct a as [ |i n inp| | ]; try reflexivity. cbn.
  now rewrite H, andb_false_r, andb_false_r.
Qed.

Lemma none_matched_none_unresolved ab ub :
  Forall (fun b => matched ab b = false) ub ->
  existsb (unresolved_search ub) ab = false.
Proof.
  intros H. destruct (existsb (unresolved_search ub) ab) eqn:E; [|reflexivity].
  apply unresolved_matched in E. apply existsb_exists in E as (b & Hb & Hm).
  rewrite Forall_forall in H. now rewrite (H b Hb) in Hm.
Qed.

Lemma no_key_no_posts api_key all added :
  Py.truthy_str api_key = false ->
  Forall (search_event api_key all) added -> http_posts added = 0.
Proof.
  intros K. induction 1 as [|ev added Hev _ IH]; [reflexivity|].
  destruct ev as [input|req|e]; cbn in Hev.
  - exact IH.
  - destruct Hev as [K' _]. congruence.
  - contradiction.
Qed.

(** X10. Without a configured EXA_API_KEY a run of the interceptor sends
    nothing to the search service; every matched [tool_result] block gets
    the serialised error envelope EXA_API_KEY not configured, the other
    blocks stay; and that content is no placeholder, so the interceptor
    run again on its own result changes nothing and searches nothing. *)
Theorem intercept_without_key :
  forall (api_key : string) (network : trace -> http_request -> outcome http_response)
         (request : ClaudeMessagesRequest.t) (t : trace),
    Py.truthy_str api_key = false ->
    exists request' added,
      intercept_websearch_in_request api_key network request t = (Ok request', t ++ added)
      /\ http_posts added = 0
      /\ intercept_websearch_in_request api_key network request' (t ++ added)
         = (Ok request', t ++ added)
      /\ (request' = request
          \/ exists pre second_last last assistant_blocks user_blocks user_blocks',
               ClaudeMessagesRequest.messages request = pre ++ [second_last; last]
               /\ content second_last = Blocks assistant_blocks
               /\ content last = Blocks user_blocks
               /\ ClaudeMessagesRequest.messages request'
                  = pre ++ [second_last;
                            {| role := role last; content := Blocks user_blocks' |}]
               /\ Forall2
                    (fun b b' =>
                       if matched assistant_blocks b then
                         exists id s,
                           b = ToolResultBlock id (ResultStr s)
                           /\ b' = ToolResultBlock id (ResultStr missing_key_content)
                       else b' = b)
                    user_blocks user_blocks').
Proof.
  intros api_key network request t K.
  destruct (intercept_searches api_key network request t)
    as [[T E] | (pre & sl & last & ab & ub & ub' & added & E & Csl & Cl & T & R & F & Hev & _)].
  - exists request, []. rewrite List.app_nil_r. repeat split; auto.
  - assert (F' : Forall2
                   (fun b b' =>
                      if matched ab b then
                        exists id s,
                          b = ToolResultBlock id (ResultStr s)
                          /\ b' = ToolResultBlock id (ResultStr missing_key_content)
                      else b' = b) ub ub').
    { eapply Forall2_impl; [|exact F]. intros b b'. unfold outcome_of.
      destruct (matched ab b); [|auto].
      intros (id & s & input & t1 & t2 & v & -> & _ & Hv & ->).
      apply (process_without_key api_key network input t1 v t2 K) in Hv. subst v.
      exists id, s. split; reflexivity. }
    pose proof (with_last_content_messages request pre sl last ub' E) as E'.
    exists (with_last_content request last ub'), added.
    split; [exact R|]. split; [now apply (no_key_no_posts api_key ab)|]. split.
    + assert (T' : trigger_condition (with_last_content request last ub') = false).
      { rewrite (trigger_condition_last_two _ pre sl _ E'). cbn [role content].
        rewrite (trigger_condition_last_two request pre sl last E), Csl, Cl in T.
        rewrite Csl. destruct (role sl); [discriminate|]. destruct (role last); [|discriminate].
        apply none_matched_none_unresolved.
        clear -F'. induction F' as [|b b' l l' Hb _ IH]; constructor; [|exact IH].
        destruct (matched ab b) eqn:M.
        - destruct Hb as (id & s & _ & ->).
          apply not_placeholder_not_matched, missing_key_content_no_placeholder.
        - now subst b'. }
      destruct (intercept_spec api_key network (with_last_content request last ub') (t ++ added))
        as [[_ I] | (? & ? & ? & ? & ? & ? & ? & _ & _ & _ & T'' & _)]; [exact I|].
      rewrite T' in T''. discriminate.
    + right. exists pre, sl, last, ab, ub, ub'. auto.
Qed.

Lemma intercept_without_key_witness :
  exists request',
    intercept_websearch_in_request "" Scenarios.unreachable
      (Scenarios.search_request_with Scenarios.one_call Scenarios.two_placeholders) []
    = (Ok request',
       [ SearchCall [("query", JStr "quantum computing breakthroughs 2025")];
         SearchCall [("query", JStr "quantum computing breakthroughs 2025")] ])
    /\ intercept_websearch_in_request "" Scenarios.unreachable request'
         [ SearchCall [("query", JStr "quantum computing breakthroughs 2025")];
           SearchCall [("query", JStr "quantum computing breakthroughs 2025")] ]
       = (Ok request',
          [ SearchCall [("query", JStr "quantum computing breakthroughs 2025")];
            SearchCall [("query", JStr "quantum computing breakthroughs 2025")] ]).
Proof.
  destruct (intercept_without_key "" Scenarios.unreachable
              (Scenarios.search_request_with Scenarios.one_call Scenarios.two_placeholders) []
              eq_refl)
    as (request' & added & R & _ & I & _).
  exists request'.
  assert (A : added = [ SearchCall [("query", JStr "quantum computing breakthroughs 2025")];
                        SearchCall [("query", JStr "quantum computing breakthroughs 2025")] ]).
  { vm_compute in R. now injection R. }
  subst added. split; [exact R|exact I].
Defined.

(** ** The number of searches of one run *)

Lemma pending_for_placeholder a b :
  pending_for a b = true ->
  exists id s, b = ToolResultBlock id (ResultStr s) /\ placeholder s = true.
Proof.
  unfold pending_for. destruct a as [ |id name input| | ]; try discriminate. cbn.
  rewrite orb_false_r. intros H. apply andb_true_iff in H as [_ Hp].
  destruct b as [ | |tuid [s|v]| ]; try discriminate. cbn in Hp.
  apply andb_true_iff in Hp as [_ Hp]. eauto.
Qed.

(** A block that is pending now was pending in the request. *)
Lemma kept_or_answered_pending a b b1 :
  kept_or_answered b b1 -> pending_for a b1 = true -> pending_for a b = true.
Proof.
  intros [-> | (id & s & -> & Hs & Hid)] H; [exact H|].
  destruct (pending_for_id a b1 H) as (id' & input & -> & Hid').
  rewrite Hid in Hid'. injection Hid' as <-.
  unfold pending_for. cbn. now rewrite String.eqb_refl, Hs.
Qed.

Lemma pending_count_le a orig cur :
  Forall2 kept_or_answered orig cur ->
  length (filter (pending_for a) cur) <= length (filter (pending_for a) orig).
Proof.
  induction 1 as [|b b1 orig cur Hb _ IH]; [reflexivity|]. cbn [filter].
  destruct (pending_for a b1) eqn:H1.
  - rewrite (kept_or_answered_pending a b b1 Hb H1). cbn [length]. lia.
  - destruct (pending_for a b); cbn [length]; lia.
Qed.

Lemma kept_or_answered_step api_key network all a orig cur cur1 :
  Forall2 kept_or_answered orig cur ->
  Forall2 (fun b b' => if pending_for a b then injected api_key network all b b' else b' = b)
          cur cur1 ->
  Forall2 kept_or_answered orig cur1.
Proof.
  intros H1 H2. eapply Forall2_compose; [|exact H1|exact H2].
  intros b b1 b2 Hb. cbv beta. destruct (pending_for a b1) eqn:Hp; [|now intros ->].
  intros Hinj. pose proof (injected_same_id api_key network all b1 b2 Hinj) as Hid.
  right. destruct Hb as [-> | (id & s & -> & Hs & Hid1)].
  - destruct (pending_for_placeholder a b Hp) as (id & s & -> & Hs).
    exists id, s. repeat split; auto.
  - exists id, s. repeat split; auto. now rewrite Hid.
Qed.

Section SearchCount.

Variable api_key : string.
Variable network : trace -> http_request -> outcome http_response.

Local Abbreviation visit_a := (visit_assistant_block api_key network).
Local Abbreviation intercept := (intercept_websearch_in_request api_key network).

Lemma fold_visit_pending_bound all :
  forall ab, incl ab all ->
  forall orig cur t,
    Forall2 kept_or_answered orig cur ->
    exists cur' added,
      fold_each visit_a ab cur t = (Ok cur', t ++ added)
      /\ search_calls added <= pending_pairs ab orig.
Proof.
  induction ab as [|a ab IH]; intros Hincl orig cur t Hrel.
  - exists cur, []. rewrite List.app_nil_r. split; [reflexivity|cbn; lia].
  - cbn [fold_each]. unfold bind.
    destruct (visit_assistant_events api_key network all a (Hincl a (or_introl eq_refl)) cur t)
      as (cur1 & added1 & Hrun1 & _ & Hc1).
    destruct (visit_assistant_spec api_key network all a (Hincl a (or_introl eq_refl)) cur t)
      as (cur1' & added1' & Hrun1' & Hstep & _).
    rewrite Hrun1 in Hrun1'. apply outcome_unique in Hrun1' as [<- <-].
    rewrite Hrun1.
    destruct (IH (fun x Hx => Hincl x (or_intror Hx)) orig cur1 (t ++ added1)
                (kept_or_answered_step api_key network all a orig cur cur1 Hrel Hstep))
      as (cur' & added2 & Hrun2 & Hc2).
    rewrite Hrun2. exists cur', (added1 ++ added2). rewrite List.app_assoc.
    split; [reflexivity|]. rewrite search_calls_app, Hc1. cbn [pending_pairs].
    pose proof (pending_count_le a orig cur Hrel). lia.
Qed.

Lemma placeholder_pairs_last_two request pre second_last last :
  ClaudeMessagesRequest.messages request = pre ++ [second_last; last] ->
  placeholder_pairs request
  = match role second_last, content second_last, role last, content last with
    | assistant, Blocks assistant_blocks, user, Blocks user_blocks =>
        pending_pairs assistant_blocks user_blocks
    | _, _, _, _ => 0
    end.
Proof. intros E. unfold placeholder_pairs. now rewrite E, rev_last_two. Qed.

Lemma intercept_pending_bound request t :
  exists request' added,
    intercept request t = (Ok request', t ++ added)
    /\ search_calls added <= placeholder_pairs request
    /\ http_posts added <= search_calls added.
Proof.
  destruct (intercept_spec api_key network request t)
    as [[_ E] | (pre & sl & last & ab & ub & ub' & added & E & Csl & Cl & T & _ & R & _ & _ & _ & Hh)].
  - exists request, []. rewrite List.app_nil_r. repeat split; cbn; auto; lia.
  - exists (with_last_content request last ub'), added.
    split; [exact R|]. split; [|exact Hh].
    rewrite (placeholder_pairs_last_two request pre sl last E).
    rewrite (trigger_condition_last_two request pre sl last E) in T.
    rewrite Csl, Cl in *.
    destruct (role sl) eqn:Rsl; [discriminate|]. destruct (role last) eqn:Rl; [|discriminate].
    destruct (fold_visit_pending_bound ab ab (incl_refl ab) ub ub t)
      as (cur' & added' & Hrun & Hc).
    { apply Forall2_same. intros b _. now left. }
    rewrite (intercept_last_two api_key network request pre sl last t E) in R.
    rewrite Csl, Cl, Rsl, Rl in R. cbn [Role_eqb andb] in R.
    unfold bind in R. rewrite Hrun in R. unfold ret in R.
    apply outcome_unique in R as [_ <-]. exact Hc.
Qed.

End SearchCount.

(** C3, amended. One run of the interceptor invokes the Search Adapter at
    most once for each pair of a WebSearch [tool_use] block of the last
    assistant turn and a [tool_result] block of the last user turn that
    has its correlation id and, in the request, a string content with a
    placeholder marker (and not at all when the last two turns are not an
    assistant turn and a user turn, both with blocks); hence at most once
    when there is at most one such pair; each invocation sends at most one
    request to the search service: no search is retried. *)
Theorem intercept_search_calls_bounded :
  forall (api_key : string) (network : trace -> http_request -> outcome http_response)
         (request : ClaudeMessagesRequest.t) (t : trace),
    exists request' added,
      intercept_websearch_in_request api_key network request t = (Ok request', t ++ added)
      /\ search_calls added <= placeholder_pairs request
      /\ http_posts added <= search_calls added
      /\ (placeholder_pairs request <= 1 -> search_calls added <= 1).
Proof.
  intros api_key network request t.
  destruct (intercept_pending_bound api_key network request t)
    as (request' & added & R & Hc & Hh).
  exists request', added. repeat split; auto. lia.
Qed.

(** One call, and three results with its correlation id of which one is a
    placeholder: one pair, one search. *)
Lemma intercept_search_calls_bounded_witness :
  exists request' added,
    intercept_websearch_in_request "exa-key" Scenarios.answering
      (Scenarios.search_request_with Scenarios.one_call
         [ ToolResultBlock "toolu_1" (ResultStr "done");
           ToolResultBlock "toolu_1" (ResultStr "done too");
           ToolResultBlock "toolu_1" (ResultStr "API Error: 400") ]) []
    = (Ok request', added)
    /\ search_calls added <= 1.
Proof.
  destruct (intercept_search_calls_bounded "exa-key" Scenarios.answering
              (Scenarios.search_request_with Scenarios.one_call
                 [ ToolResultBlock "toolu_1" (ResultStr "done");
                   ToolResultBlock "toolu_1" (ResultStr "done too");
                   ToolResultBlock "toolu_1" (ResultStr "API Error: 400") ]) [])
    as (request' & added & R & _ & _ & H).
  exists request', added. split; [exact R|]. apply H. vm_compute. lia.
Defined.
